(** * harlequin_duckdb.adapter: init-script interpreter, type normalizer and
      catalog builder

    A shallow embedding of the parts of [src/harlequin_duckdb/adapter.py]
    that carry logic: [DuckDbConnection._short_column_type],
    [DuckDbConnection._short_relation_type], [DuckDbConnection.get_catalog],
    [DuckDbAdapter._split_script], [DuckDbAdapter._rewrite_dot_open],
    [DuckDbAdapter._rewrite_init_command] and the init-script block of
    [DuckDbAdapter.connect].

    Python values are modelled as follows.
    - [str] is a list of Unicode code points ([N]); literals are written
      [lit "..."].
    - a [dict] is a [gmap]; [d.get(k, default)] is a lookup with a default.
    - a Python exception is a value of [exn]; code that can raise returns a
      [result]; code that also talks to the engine threads the engine state.
    - [pathlib.Path] is an interface ([PathFlavour]) with the POSIX flavour
      as its instance. *)

From Stdlib Require Import Strings.String Strings.Ascii DecimalString NArith Lia.
From stdpp Require Import gmap list.

Local Open Scope N_scope.
Local Open Scope list_scope.

(** ** Python strings *)

Module Py.

(** A character is a code point; a string is the list of its characters. *)
Abbreviation char := N (only parsing).
Abbreviation str := (list N) (only parsing).

(** A string literal of the source, one code point per character. *)
Definition lit (s : String.string) : str :=
  List.map Ascii.N_of_ascii (String.list_ascii_of_string s).
Arguments lit s%_string.

(** [Py_UNICODE_ISSPACE]: the characters [str.strip()] and [str.split()]
    treat as whitespace. *)
Definition isspace (c : char) : bool :=
  ((9 <=? c) && (c <=? 13)) || ((28 <=? c) && (c <=? 32))
  || (c =? 133) || (c =? 160) || (c =? 5760)
  || ((8192 <=? c) && (c <=? 8202))
  || (c =? 8232) || (c =? 8233) || (c =? 8239) || (c =? 8287) || (c =? 12288).

(** [Py_UNICODE_ISLINEBREAK]: the characters [str.splitlines()] breaks at. *)
Definition islinebreak (c : char) : bool :=
  ((10 <=? c) && (c <=? 13)) || ((28 <=? c) && (c <=? 30))
  || (c =? 133) || (c =? 8232) || (c =? 8233).

Definition LF : char := 10.
Definition CR : char := 13.

(** [bool(s)] for a string: non-empty. *)
Definition truthy (s : str) : bool :=
  match s with [] => false | _ :: _ => true end.

(** [a == b] on strings. *)
Definition eqb (a b : str) : bool := bool_decide (a = b).

(** [s.startswith(prefix)]. *)
Fixpoint startswith (s prefix : str) {struct prefix} : bool :=
  match prefix, s with
  | [], _ => true
  | _ :: _, [] => false
  | p :: prefix', c :: s' => (c =? p) && startswith s' prefix'
  end.

(** [s.endswith(suffix)]. *)
Definition endswith (s suffix : str) : bool :=
  startswith (rev s) (rev suffix).

(** [sep.join(parts)]. *)
Fixpoint join (sep : str) (parts : list str) : str :=
  match parts with
  | [] => []
  | [x] => x
  | x :: rest => x ++ sep ++ join sep rest
  end.

(** [s.lstrip()], [s.rstrip()], [s.strip()] with no argument. *)
Fixpoint lstrip (s : str) : str :=
  match s with
  | [] => []
  | c :: rest => if isspace c then lstrip rest else s
  end.

Definition rstrip (s : str) : str := rev (lstrip (rev s)).

Definition strip (s : str) : str := rstrip (lstrip s).

(** [s.split(sep)] for a separator of one character (every separator of the
    source is: "(", "[", ";"); the result always has at least one piece. *)
Fixpoint split (sep : char) (s : str) : list str :=
  match s with
  | [] => [[]]
  | c :: rest =>
      if c =? sep then [] :: split sep rest
      else match split sep rest with
           | piece :: pieces => (c :: piece) :: pieces
           | [] => [[c]]
           end
  end.

(** [s.split()] with no argument: the maximal runs of non-whitespace. *)
Fixpoint split_ws (s : str) : list str :=
  match s with
  | [] => []
  | c :: rest =>
      if isspace c then split_ws rest
      else match rest with
           | [] => [[c]]
           | c' :: _ =>
               if isspace c' then [c] :: split_ws rest
               else match split_ws rest with
                    | word :: words => (c :: word) :: words
                    | [] => [[c]]
                    end
           end
  end.

(** [s.splitlines()]: lines without their terminators; "\r\n" is one
    terminator; no empty line is reported after a final terminator. *)
Fixpoint splitlines (s : str) : list str :=
  match s with
  | [] => []
  | c :: rest =>
      if islinebreak c then
        [] :: match rest with
              | c' :: rest' =>
                  if (c =? CR) && (c' =? LF) then splitlines rest'
                  else splitlines rest
              | [] => []
              end
      else match splitlines rest with
           | line :: lines => (c :: line) :: lines
           | [] => [[c]]
           end
  end.

(** [l[i:j]] and [l[i:]] for non-negative indices. *)
Definition slice {A} (l : list A) (i j : nat) : list A := take (j - i) (drop i l).
Definition slice_from {A} (l : list A) (i : nat) : list A := drop i l.

(** [enumerate(l)]. *)
Definition enumerate {A} (l : list A) : list (nat * A) :=
  combine (seq 0 (length l)) l.

(** [str(n)] for a non-negative integer. *)
Definition str_of_nat (n : nat) : str :=
  lit (DecimalString.NilEmpty.string_of_uint (Nat.to_uint n)).

End Py.

Import Py.

(** ** Exceptions and results *)

(** The exceptions this code can meet: Python's [IndexError] and [OSError],
    the engine's [duckdb.Error] with its message, [HarlequinConnectionError]
    of [harlequin/exception.py] with its [msg] and [title], and any other
    Python exception (one that no [except] clause of this code names), by the
    name of its class. *)
Inductive exn : Type :=
  | IndexError
  | OSError
  | duckdb_Error (msg : str)
  | HarlequinConnectionError (msg : str) (title : str)
  | PyException (class_name : str).

Inductive result (A : Type) : Type :=
  | Return (a : A)
  | Raise (e : exn).
Arguments Return {A} a.
Arguments Raise {A} e.

Definition bind {A B} (m : result A) (f : A -> result B) : result B :=
  match m with
  | Return a => f a
  | Raise e => Raise e
  end.

Declare Scope py_scope.
Delimit Scope py_scope with py.
Notation "x <- m ;; k" := (bind m (fun x => k))
  (at level 100, m at next level, right associativity) : py_scope.

(** [l[i]]: raises [IndexError] out of range. *)
Definition getitem {A} (l : list A) (i : nat) : result A :=
  match l !! i with
  | Some x => Return x
  | None => Raise IndexError
  end.

(** ** TypeNormalizer: [DuckDbConnection] class tables and class methods *)

Definition RELATION_TYPE_MAPPING : gmap str str :=
  list_to_map
    [ (lit "BASE TABLE", lit "t");
      (lit "LOCAL TEMPORARY", lit "tmp");
      (lit "VIEW", lit "v") ].

Definition COLUMN_TYPE_MAPPING : gmap str str :=
  list_to_map
    [ (lit "SQLNULL", lit "\n");
      (lit "BOOLEAN", lit "t/f");
      (lit "TINYINT", lit "#");
      (lit "UTINYINT", lit "u#");
      (lit "SMALLINT", lit "#");
      (lit "USMALLINT", lit "u#");
      (lit "INTEGER", lit "#");
      (lit "UINTEGER", lit "u#");
      (lit "BIGINT", lit "##");
      (lit "UBIGINT", lit "u##");
      (lit "HUGEINT", lit "###");
      (lit "UUID", lit "uid");
      (lit "FLOAT", lit "#.#");
      (lit "DOUBLE", lit "#.#");
      (lit "DATE", lit "d");
      (lit "TIMESTAMP", lit "ts");
      (lit "TIMESTAMP_MS", lit "ts");
      (lit "TIMESTAMP_NS", lit "ts");
      (lit "TIMESTAMP_S", lit "ts");
      (lit "TIME", lit "t");
      (lit "TIME_TZ", lit "ttz");
      (lit "TIMESTAMP_TZ", lit "ttz");
      (lit "TIMESTAMP WITH TIME ZONE", lit "ttz");
      (lit "VARCHAR", lit "s");
      (lit "BLOB", lit "0b");
      (lit "BIT", lit "010");
      (lit "INTERVAL", lit "|-|");
      (lit "DECIMAL", lit "#.#");
      (lit "REAL", lit "#.#");
      (lit "STRUCT", lit "{}");
      (lit "MAP", lit "{m}") ].

Definition UNKNOWN_TYPE : str := lit "?".

(** [dict.get(key, default)]. *)
Definition dict_get (d : gmap str str) (key default : str) : str :=
  match d !! key with
  | Some v => v
  | None => default
  end.

Definition _short_relation_type (native_type : str) : str :=
  dict_get RELATION_TYPE_MAPPING native_type UNKNOWN_TYPE.

(** [str(native_type).split("(")[0].split("[")[0]]. *)
Definition base_type_of (native_type : str) : result str :=
  (before_paren <- getitem (split 40 native_type) 0 ;;
   getitem (split 91 before_paren) 0)%py.

Definition _short_column_type (native_type : str) : result str :=
  (base_type <- base_type_of native_type ;;
   let short_base_type := dict_get COLUMN_TYPE_MAPPING base_type UNKNOWN_TYPE in
   if endswith native_type (lit "[]")
   then Return (lit "[" ++ short_base_type ++ lit "]")
   else Return short_base_type)%py.

(** The base name in the spec's words: everything before the first "(" or
    "[" of the native type. *)
Fixpoint strip_type_params (native_type : str) : str :=
  match native_type with
  | [] => []
  | c :: rest =>
      if (c =? 40) || (c =? 91) then [] else c :: strip_type_params rest
  end.

(** The first piece of [s.split(sep)] is [s] up to its first [sep]. *)
Fixpoint before (sep : char) (s : str) : str :=
  match s with
  | [] => []
  | c :: rest => if c =? sep then [] else c :: before sep rest
  end.


(** ** ScriptSplitter: [DuckDbAdapter._split_script] *)

(** The body of the [for j, line in enumerate(lines)] loop; the loop state is
    the list [commands] and the index [i] of the first line not yet
    emitted. *)
Definition split_script_step (lines : list str)
    (st : list str * nat) (jl : nat * str) : list str * nat :=
  let '(commands, i) := st in
  let '(j, line) := jl in
  if startswith line (lit ".")
  then ((commands ++ [join [LF] (slice lines i j)]) ++ [line], (j + 1)%nat)
  else (commands, i).

(** [commands] as it stands before the final list comprehension. *)
Definition split_script_commands (lines : list str) : list str :=
  let '(commands, i) :=
    fold_left (split_script_step lines) (enumerate lines) ([], 0%nat) in
  commands ++ [join [LF] (slice_from lines i)].

Definition _split_script (script : str) : list str :=
  let lines := splitlines script in
  let commands := split_script_commands lines in
  List.map strip (List.filter truthy commands).

(** ** [pathlib.Path] *)

(** What [_rewrite_dot_open] uses of a path: [str(Path(p))] and
    [Path(p).stem].  [Path] is [PosixPath] or [WindowsPath] by platform. *)
Class PathFlavour := {
  Path_str : str -> str;
  Path_stem : str -> str
}.

Module PosixPath.

Definition sep : char := 47.

(** [_PosixFlavour.splitroot] without the (always empty) drive: exactly two
    leading slashes are kept, any other number of them is one slash. *)
Fixpoint lstrip_sep (part : str) : str :=
  match part with
  | [] => []
  | c :: rest => if c =? sep then lstrip_sep rest else part
  end.

Definition splitroot (part : str) : str * str :=
  if startswith part [sep] then
    let stripped_part := lstrip_sep part in
    if (length part - length stripped_part =? 2)%nat
    then ([sep; sep], stripped_part)
    else ([sep], stripped_part)
  else ([], part).

(** [parse_parts] for the single argument [Path(p)]: the root and the
    components that are neither empty nor ".". *)
Definition parse_parts (p : str) : str * list str :=
  let '(root, rel) := splitroot p in
  (root, List.filter (fun x => truthy x && negb (Py.eqb x (lit "."))) (split sep rel)).

(** [__str__]: the root followed by the components joined with "/", or "."
    for the empty path. *)
Definition to_str (p : str) : str :=
  let '(root, names) := parse_parts p in
  let s := root ++ join [sep] names in
  if truthy s then s else lit ".".

(** [name]: the final component, "" if there is none. *)
Definition name (p : str) : str :=
  let '(_, names) := parse_parts p in
  List.last names [].

(** [name.rfind(".")], [None] for -1. *)
Fixpoint rfind (c : char) (s : str) : option nat :=
  match s with
  | [] => None
  | x :: rest =>
      match rfind c rest with
      | Some i => Some (S i)
      | None => if x =? c then Some 0%nat else None
      end
  end.

(** [stem]: [name[:i]] if [0 < i < len(name) - 1] for the last dot [i],
    else [name]. *)
Definition stem (p : str) : str :=
  let name := name p in
  match rfind 46 name with
  | Some i =>
      if (0 <? i)%nat && (i + 1 <? length name)%nat then take i name else name
  | None => name
  end.

End PosixPath.

#[export] Instance posix_flavour : PathFlavour :=
  {| Path_str := PosixPath.to_str; Path_stem := PosixPath.stem |}.

(** ** ScriptRewriter: [_rewrite_dot_open] and [_rewrite_init_command] *)

Section Rewriter.
Context {flavour : PathFlavour}.

Definition _rewrite_dot_open (command : str) : result str :=
  let args := drop 1 (split_ws command) in
  if bool_decide (args = [])
  then Return (lit "attach ':memory:'; use memory;")
  else
    (readonly <- (if (length args =? 2)%nat
                  then (arg0 <- getitem args 0 ;;
                        Return (Py.eqb arg0 (lit "--readonly")))
                  else Return false) ;;
     option_db_path <- (if readonly : bool
                        then (arg1 <- getitem args 1 ;;
                              Return (lit " (READ_ONLY)", arg1))
                        else (arg0 <- getitem args 0 ;;
                              Return ([], arg0))) ;;
     let '(option, db_path) := option_db_path in
     Return (lit "attach '" ++ Path_str db_path ++ lit "'" ++ option
             ++ lit " as " ++ Path_stem db_path
             ++ lit "; use " ++ Path_stem db_path ++ lit ";"))%py.

Definition _rewrite_init_command (command : str) : result str :=
  if negb (startswith command (lit ".")) then Return command
  else if startswith command (lit ".open") then _rewrite_dot_open command
  else Return [].

End Rewriter.

(** ** Session bootstrap: the init-script block of [DuckDbAdapter.connect] *)

Section Connect.
Context {flavour : PathFlavour}.

(** The engine behind [connection]: its state, and [connection.execute(cmd)],
    which changes the state and may raise. *)
Variable Engine : Type.
Variable execute : str -> Engine -> result unit * Engine.

(** The file system as [_read_init_script] sees it:
    [open(init_path.expanduser(), "r").read()] gives the text of the file, or
    raises: [OSError] where the file cannot be opened or read, another
    exception otherwise ([RuntimeError] from [expanduser],
    [UnicodeDecodeError] from [read]). *)
Variable read_file : str -> result str.

(** Code that runs against the engine. *)
Definition M (A : Type) : Type := Engine -> result A * Engine.

Definition ret {A} (a : A) : M A := fun conn => (Return a, conn).

Definition raise {A} (e : exn) : M A := fun conn => (Raise e, conn).

Definition mbind {A B} (m : M A) (f : A -> M B) : M B :=
  fun conn =>
    match m conn with
    | (Return a, conn') => f a conn'
    | (Raise e, conn') => (Raise e, conn')
    end.

Definition lift {A} (r : result A) : M A := fun conn => (r, conn).

Notation "x <~ m ;; k" := (mbind m (fun x => k))
  (at level 100, m at next level, right associativity).

(** [for x in xs: st = body(st, x)]. *)
Fixpoint for_each {A S} (xs : list A) (body : S -> A -> M S) (st : S) : M S :=
  match xs with
  | [] => ret st
  | x :: xs' => st' <~ body st x ;; for_each xs' body st'
  end.

(** Only [OSError] is caught. *)
Definition _read_init_script (init_path : str) : result str :=
  match read_file init_path with
  | Return init_script => Return init_script
  | Raise OSError => Return []
  | Raise other => Raise other
  end.

(** [if cmd.strip(): connection.execute(cmd); count += 1]. *)
Definition init_statement (count : nat) (cmd : str) : M nat :=
  if truthy (strip cmd)
  then (_ <~ execute cmd ;; ret (count + 1)%nat)
  else ret count.

(** The body of [for command in self._split_script(init_script)]. *)
Definition init_command (count : nat) (command : str) : M nat :=
  rewritten_command <~ lift (_rewrite_init_command command) ;;
  for_each (split 59 rewritten_command) init_statement count.

(** The body of the [try]. *)
Definition init_try (init_script : str) : M nat :=
  for_each (_split_script init_script) init_command 0%nat.

Definition init_error_title : str :=
  lit "DuckDB could not execute your initialization script.".

(** From [msg = ""] to the value of [msg] at [return]: the init message of
    the connection, or the exception raised. *)
Definition connect_init (init_path : option str) (no_init : bool) : M str :=
  match init_path with
  | Some path =>
      if negb no_init then
        init_script <~ lift (_read_init_script path) ;;
        fun conn =>
          match init_try init_script conn with
          | (Raise (duckdb_Error e), conn') =>
              (first <~ lift (getitem init_script 0) ;;
               let msg := lit "Attempted to execute script at " ++ [first]
                          ++ [LF] ++ e in
               raise (HarlequinConnectionError msg init_error_title)) conn'
          | (Raise other, conn') => (Raise other, conn')
          | (Return count, conn') =>
              if (0 <? count)%nat
              then (Return (lit "Executed " ++ str_of_nat count ++ lit " "
                            ++ (if (count =? 1)%nat then lit "command"
                                else lit "commands")
                            ++ lit " from " ++ path), conn')
              else (Return [], conn')
          end
      else ret []
  | None => ret []
  end.

(** The statements of one rewritten command: the pieces between ";" whose
    trimmed form is not empty, in order. *)
Definition statements_of (rewritten_command : str) : list str :=
  List.filter (fun cmd => truthy (strip cmd)) (split 59 rewritten_command).

(** The statements of a script in the spec's words: for each command of the
    splitter, in order, the statements of its rewriting. *)
Definition init_statements (init_script : str) : list str :=
  flat_map (fun command =>
              match _rewrite_init_command command with
              | Return rewritten_command => statements_of rewritten_command
              | Raise _ => []
              end)
           (_split_script init_script).

(** Submitting statements one after the other, counting each one the engine
    accepted, and stopping at the first one it refuses. *)
Fixpoint run_statements (stmts : list str) (count : nat) : M nat :=
  match stmts with
  | [] => ret count
  | cmd :: rest => _ <~ execute cmd ;; run_statements rest (count + 1)%nat
  end.

(** The message of a successful bootstrap. *)
Definition init_message (count : nat) (path : str) : str :=
  if (0 <? count)%nat
  then lit "Executed " ++ str_of_nat count ++ lit " "
       ++ (if (count =? 1)%nat then lit "command" else lit "commands")
       ++ lit " from " ++ path
  else [].

End Connect.

(** ** CatalogBuilder: [DuckDbConnection.get_catalog] *)

(** [harlequin.catalog.CatalogItem] and [Catalog]. *)
#[warnings="-register-all"]
Inductive CatalogItem : Type :=
  mkCatalogItem (qualified_identifier query_name label type_label : str)
                (children : list CatalogItem).

Definition type_label (item : CatalogItem) : str :=
  let '(mkCatalogItem _ _ _ t _) := item in t.
Definition label (item : CatalogItem) : str :=
  let '(mkCatalogItem _ _ l _ _) := item in l.
Definition children (item : CatalogItem) : list CatalogItem :=
  let '(mkCatalogItem _ _ _ _ c) := item in c.
Definition qualified_identifier (item : CatalogItem) : str :=
  let '(mkCatalogItem q _ _ _ _) := item in q.
Definition query_name (item : CatalogItem) : str :=
  let '(mkCatalogItem _ q _ _ _) := item in q.

Record Catalog := { items : list CatalogItem }.

(** The four metadata queries, [cur.execute(...).fetchall()] each: the rows
    the engine answers, or the exception it raises. *)
Record MetadataSource := {
  _get_databases : result (list str);
  _get_schemas : str -> result (list str);
  _get_tables : str -> str -> result (list (str * str));
  _get_columns : str -> str -> str -> result (list (str * str))
}.

(** [items = []; for x in xs: items.append(body(x))], also the list
    comprehension [[body(x) for x in xs]]. *)
Fixpoint for_append {A B} (xs : list A) (body : A -> result B)
    (items : list B) : result (list B) :=
  match xs with
  | [] => Return items
  | x :: xs' => (item <- body x ;; for_append xs' body (items ++ [item]))%py
  end.

Definition DQUOTE : char := 34.

(** [f'"{name}"']. *)
Definition quoted (name : str) : str := [DQUOTE] ++ name ++ [DQUOTE].

Section GetCatalog.
Variable self : MetadataSource.

Definition column_item (table_identifier : str) (col : str * str)
  : result CatalogItem :=
  (short <- _short_column_type (snd col) ;;
   Return (mkCatalogItem (table_identifier ++ lit "." ++ quoted (fst col))
                         (quoted (fst col)) (fst col) short []))%py.

Definition table_item (database schema schema_identifier : str)
    (row : str * str) : result CatalogItem :=
  let '(table, kind) := row in
  let table_identifier := schema_identifier ++ lit "." ++ quoted table in
  (columns <- _get_columns self database schema table ;;
   column_items <- for_append columns (column_item table_identifier) [] ;;
   Return (mkCatalogItem table_identifier table_identifier table
                         (_short_relation_type kind) column_items))%py.

Definition schema_item (database database_identifier schema : str)
  : result CatalogItem :=
  let schema_identifier := database_identifier ++ lit "." ++ quoted schema in
  (tables <- _get_tables self database schema ;;
   table_items <- for_append tables
                    (table_item database schema schema_identifier) [] ;;
   Return (mkCatalogItem schema_identifier schema_identifier schema
                         (lit "sch") table_items))%py.

Definition database_item (database : str) : result CatalogItem :=
  let database_identifier := quoted database in
  (schemas <- _get_schemas self database ;;
   schema_items <- for_append schemas
                     (schema_item database database_identifier) [] ;;
   Return (mkCatalogItem database_identifier database_identifier database
                         (lit "db") schema_items))%py.

Definition get_catalog : result Catalog :=
  (databases <- _get_databases self ;;
   catalog_items <- for_append databases database_item [] ;;
   Return {| items := catalog_items |})%py.

End GetCatalog.

(** The number of levels of a catalog tree, and its number of nodes. *)
Fixpoint item_depth (item : CatalogItem) : nat :=
  let '(mkCatalogItem _ _ _ _ cs) := item in
  S (foldr (fun c d => Nat.max (item_depth c) d) 0%nat cs).

Definition catalog_depth (c : Catalog) : nat :=
  foldr (fun i d => Nat.max (item_depth i) d) 0%nat (items c).

Fixpoint item_size (item : CatalogItem) : nat :=
  let '(mkCatalogItem _ _ _ _ cs) := item in
  S (foldr (fun c n => (item_size c + n)%nat) 0%nat cs).

(** The statements of the open-rewrite rule in the spec's words:
    [attach '<path>'<option> as <stem>; use <stem>;]. *)
Definition attach_use `{PathFlavour} (option db_path : str) : str :=
  lit "attach '" ++ Path_str db_path ++ lit "'" ++ option
  ++ lit " as " ++ Path_stem db_path
  ++ lit "; use " ++ Path_stem db_path ++ lit ";".

(** The open-rewrite rule in the spec's words, on the arguments that follow
    the command name. *)
Definition open_rule `{PathFlavour} (args : list str) : str :=
  match args with
  | [] => lit "attach ':memory:'; use memory;"
  | [flag; path] =>
      if Py.eqb flag (lit "--readonly")
      then attach_use (lit " (READ_ONLY)") path
      else attach_use [] flag
  | first :: _ => attach_use [] first
  end.

(** The scan of the splitter in the spec's words: [pending] holds the lines
    since the last boundary; a line that starts with "." closes the pending
    lines into one command and is a command itself; the lines left at the end
    are the last command. *)
Fixpoint scan_lines (pending : list str) (lines : list str) : list str :=
  match lines with
  | [] => [join [LF] pending]
  | line :: rest =>
      if startswith line (lit ".")
      then join [LF] pending :: line :: scan_lines [] rest
      else scan_lines (pending ++ [line]) rest
  end.

(** A line that is not a meta-command. *)
Definition sql_line (line : str) : Prop := startswith line (lit ".") = false.

(** A script whose only line-break characters are "\n". *)
Definition only_LF (s : str) : Prop :=
  Forall (fun c => islinebreak c = true -> c = LF) s.

(** A script with a character that is not whitespace. *)
Definition has_text (s : str) : Prop :=
  exists c, c ∈ s /\ isspace c = false.

(** A string of whitespace only. *)
Definition blank (s : str) : Prop := Forall (fun c => isspace c = true) s.

(** An engine for examples: it records the statements it accepted and refuses
    the statement "boom". *)
Definition log_execute (cmd : str) (log : list str) : result unit * list str :=
  if Py.eqb (strip cmd) (lit "boom")
  then (Raise (duckdb_Error (lit "Parser Error: syntax error at or near boom")), log)
  else (Return tt, log ++ [cmd]).

(** A file system for examples: one init script at "~/.duckdbrc". *)
Definition example_script : str :=
  lit "select 1;" ++ [LF] ++ lit ".open foo.db" ++ [LF] ++ lit "boom;"
  ++ [LF] ++ lit "select 2;".

Definition example_files (path : str) : result str :=
  if Py.eqb path (lit "~/.duckdbrc") then Return example_script
  else Raise OSError.

(** *** What a failed and what a complete build are *)

Section CatalogSpec.
Variable self : MetadataSource.

(** One of the four metadata queries, asked about rows that the queries
    above it returned, raises [e]. *)
Definition columns_query_fails (database schema : str) (e : exn) : Prop :=
  exists rows row,
    _get_tables self database schema = Return rows /\ row ∈ rows
    /\ _get_columns self database schema (fst row) = Raise e.

Definition tables_query_fails (database : str) (e : exn) : Prop :=
  exists schemas schema,
    _get_schemas self database = Return schemas /\ schema ∈ schemas
    /\ (_get_tables self database schema = Raise e
        \/ columns_query_fails database schema e).

Definition metadata_query_fails (e : exn) : Prop :=
  _get_databases self = Raise e
  \/ exists databases database,
       _get_databases self = Return databases /\ database ∈ databases
       /\ (_get_schemas self database = Raise e
           \/ tables_query_fails database e).

(** A catalog with one node for every row of every query, in the order of
    the rows. *)
Definition column_ok (col : str * str) (item : CatalogItem) : Prop :=
  label item = fst col
  /\ _short_column_type (snd col) = Return (type_label item)
  /\ children item = [].

Definition table_ok (database schema : str) (row : str * str)
    (item : CatalogItem) : Prop :=
  label item = fst row
  /\ type_label item = _short_relation_type (snd row)
  /\ exists columns,
       _get_columns self database schema (fst row) = Return columns
       /\ Forall2 column_ok columns (children item).

Definition schema_ok (database schema : str) (item : CatalogItem) : Prop :=
  label item = schema
  /\ type_label item = lit "sch"
  /\ exists tables,
       _get_tables self database schema = Return tables
       /\ Forall2 (table_ok database schema) tables (children item).

Definition database_ok (database : str) (item : CatalogItem) : Prop :=
  label item = database
  /\ type_label item = lit "db"
  /\ exists schemas,
       _get_schemas self database = Return schemas
       /\ Forall2 (schema_ok database) schemas (children item).

Definition catalog_complete (catalog : Catalog) : Prop :=
  exists databases,
    _get_databases self = Return databases
    /\ Forall2 database_ok databases (items catalog).

End CatalogSpec.

(** Metadata sources for examples: one database "memory", one schema "main",
    one base table "t1" with the columns "id" (INTEGER) and "tags"
    (VARCHAR[]); and the same engine refusing the columns query. *)
Definition example_source : MetadataSource :=
  {| _get_databases := Return [lit "memory"];
     _get_schemas := fun _ => Return [lit "main"];
     _get_tables := fun _ _ => Return [(lit "t1", lit "BASE TABLE")];
     _get_columns := fun _ _ _ =>
       Return [(lit "id", lit "INTEGER"); (lit "tags", lit "VARCHAR[]")] |}.

Definition failing_source : MetadataSource :=
  {| _get_databases := Return [lit "memory"];
     _get_schemas := fun _ => Return [lit "main"];
     _get_tables := fun _ _ => Return [(lit "t1", lit "BASE TABLE")];
     _get_columns := fun _ _ _ =>
       Raise (duckdb_Error (lit "IO Error: database file is gone")) |}.

(** * More of the adapter *)

(** ** Lines that are meta-commands *)

(** [line.startswith(".")] as a filter on lines. *)
Definition dot_lines (lines : list str) : list str :=
  List.filter (fun line => startswith line (lit ".")) lines.

(** A meta-command line the rewriter does not support. *)
Definition unsupported_line (line : str) : Prop :=
  startswith line (lit ".") = true /\ startswith line (lit ".open") = false.

(** The statements of the commands the scan leaves, from the pending lines
    and the lines still to read. *)
Definition scan_statements `{PathFlavour} (pending lines : list str) : list str :=
  flat_map (fun command =>
              match _rewrite_init_command command with
              | Return rewritten_command => statements_of rewritten_command
              | Raise _ => []
              end)
           (List.map strip (List.filter truthy (scan_lines pending lines))).

(** ** Identifiers of catalog nodes *)

(** A column node under the table [table_identifier]: its qualified
    identifier is the table's, a dot and its quoted name; its query name is
    its quoted name alone. *)
Definition column_identified (table_identifier : str) (item : CatalogItem)
  : Prop :=
  qualified_identifier item = table_identifier ++ lit "." ++ quoted (label item)
  /\ query_name item = quoted (label item).

(** A node above the columns, under [parent] (nothing for a database): its
    qualified identifier is the parent's, a dot and its quoted name, its
    query name is its qualified identifier, and its children are identified
    under it. *)
Definition table_identified (schema_identifier : str) (item : CatalogItem)
  : Prop :=
  qualified_identifier item = schema_identifier ++ lit "." ++ quoted (label item)
  /\ query_name item = qualified_identifier item
  /\ Forall (column_identified (qualified_identifier item)) (children item).

Definition schema_identified (database_identifier : str) (item : CatalogItem)
  : Prop :=
  qualified_identifier item
  = database_identifier ++ lit "." ++ quoted (label item)
  /\ query_name item = qualified_identifier item
  /\ Forall (table_identified (qualified_identifier item)) (children item).

Definition database_identified (item : CatalogItem) : Prop :=
  qualified_identifier item = quoted (label item)
  /\ query_name item = qualified_identifier item
  /\ Forall (schema_identified (qualified_identifier item)) (children item).

(** ** The connection layer: cursor, [execute], [copy], [validate_sql] and
       the opening of the connection *)

Module Conn.

(** The exception classes the source names in its [except] clauses. *)
Inductive exc_name : Type :=
  | Error | CatalogException | IOException | HTTPException | OSError.

(** A Python value where the source takes [Any]: what the code does with it
    is [bool(v)], [str(v)] and [v == "..."]. *)
Inductive PyVal : Type :=
  | PyNone
  | PyBool (b : bool)
  | PyInt (z : Z)
  | PyStr (s : str)
  | PyObject (truth : bool) (repr : str).

(** [bool(v)]. *)
Definition truth (v : PyVal) : bool :=
  match v with
  | PyNone => false
  | PyBool b => b
  | PyInt z => negb (z =? 0)%Z
  | PyStr s => truthy s
  | PyObject b _ => b
  end.

(** [str(v)], as an f-string formats it. *)
Definition to_str (v : PyVal) : str :=
  match v with
  | PyNone => lit "None"
  | PyBool true => lit "True"
  | PyBool false => lit "False"
  | PyInt z => lit (DecimalString.NilZero.string_of_int (Z.to_int z))
  | PyStr s => s
  | PyObject _ repr => repr
  end.

(** [d.get(key)] and [d.get(key, default)] on a dict of values. *)
Definition get (d : gmap (list N) PyVal) (key : str) (default : PyVal) : PyVal :=
  match d !! key with
  | Some v => v
  | None => default
  end.

(** What an engine call gives: a value, or a Python exception of the engine
    or of the operating system. *)
Inductive eresult (E A : Type) : Type :=
  | EOk (a : A)
  | ERaise (e : E).
Arguments EOk {E A} a.
Arguments ERaise {E A} e.

(** What the adapter's own code gives: a value, or an exception: one that
    came from below, Python's [ValueError], or one of
    [harlequin/exception.py] with its [msg] and [title]. *)
Inductive raised (E : Type) : Type :=
  | Foreign (e : E)
  | ValueError
  | HarlequinQueryError (msg title : str)
  | HarlequinCopyError (msg title : str)
  | HarlequinConnectionError (msg title : str).
Arguments Foreign {E} e.
Arguments ValueError {E}.
Arguments HarlequinQueryError {E} msg title.
Arguments HarlequinCopyError {E} msg title.
Arguments HarlequinConnectionError {E} msg title.

Inductive outcome (E A : Type) : Type :=
  | Ok (a : A)
  | Exc (r : raised E).
Arguments Ok {E A} a.
Arguments Exc {E A} r.

(** The [duckdb] package, [json.loads] and the platform, as the adapter uses
    them.  [Connection] is the state of a [DuckDBPyConnection]; a call on it
    gives its result and the new state.  A [Relation] is a lazy query.
    [expanduser] is [str(path.expanduser())], which raises [RuntimeError]
    where the home directory of a "~user" path cannot be found. *)
Class DuckDB := {
  exc : Type;
  isinstance : exc -> exc_name -> bool;
  exc_str : exc -> str;
  Connection : Type;
  Relation : Type;
  Table : Type;
  duckdb_connect : str -> bool -> str -> eresult exc Connection;
  conn_execute : str -> Connection -> eresult exc unit * Connection;
  conn_sql : str -> Connection -> eresult exc (option Relation) * Connection;
  sql_fetchone : str -> Connection -> eresult exc str * Connection;
  install_extension : str -> bool -> Connection -> eresult exc unit * Connection;
  load_extension : str -> Connection -> eresult exc unit * Connection;
  rel_columns : Relation -> list str;
  rel_dtypes : Relation -> list str;
  rel_limit : Relation -> Z -> eresult exc Relation;
  fetch_arrow_table : Relation -> eresult exc Table;
  write_csv : Relation -> str -> gmap (list N) PyVal -> Connection
              -> eresult exc unit * Connection;
  write_parquet : Relation -> str -> PyVal -> Connection
                  -> eresult exc unit * Connection;
  json_loads : str -> eresult exc (gmap (list N) PyVal);
  expanduser : str -> eresult exc str;
  resolve : str -> str;
  home_duckdbrc : str
}.

Section Layer.
Context {duckdb : DuckDB}.

(** *** [DuckDbCursor] *)

Record DuckDbCursor := { relation : Relation }.

(** [list(zip(relation.columns, map(_short_column_type, relation.dtypes)))]. *)
Definition columns (self : DuckDbCursor) : result (list (str * str)) :=
  (types <- for_append (rel_dtypes (relation self)) _short_column_type [] ;;
   Return (combine (rel_columns (relation self)) types))%py.

Definition set_limit (self : DuckDbCursor) (limit : Z) : outcome exc DuckDbCursor :=
  match rel_limit (relation self) limit with
  | EOk limited => Ok {| relation := limited |}
  | ERaise e => if isinstance e Error then Ok self else Exc (Foreign e)
  end.

Definition fetchall (self : DuckDbCursor) : outcome exc Table :=
  match fetch_arrow_table (relation self) with
  | EOk table => Ok table
  | ERaise e =>
      if isinstance e Error
      then Exc (HarlequinQueryError (exc_str e)
                  (lit "DuckDB raised an error when running your query:"))
      else Exc (Foreign e)
  end.

(** *** [DuckDbConnection.execute] *)

Definition execute (query : str) (conn : Connection)
  : outcome exc (option DuckDbCursor) * Connection :=
  match conn_sql query conn with
  | (ERaise e, conn') =>
      if isinstance e Error
      then (Exc (HarlequinQueryError (exc_str e)
                   (lit "DuckDB raised an error when compiling or running your query:")),
            conn')
      else (Exc (Foreign e), conn')
  | (EOk (Some rel), conn') => (Ok (Some {| relation := rel |}), conn')
  | (EOk None, conn') => (Ok None, conn')
  end.

(** *** [DuckDbConnection.copy] *)

(** [{k: v for k, v in options.items() if v}]. *)
Definition truthy_options (options : gmap (list N) PyVal) : gmap (list N) PyVal :=
  filter (fun kv => truth kv.2 = true) options.

(** The keyword arguments of [write_csv]: a [quoting] that is set becomes
    "ALL". *)
Definition csv_kwargs (options : gmap (list N) PyVal) : gmap (list N) PyVal :=
  let kwargs := truthy_options options in
  if truth (get kwargs (lit "quoting") PyNone)
  then <[lit "quoting" := PyStr (lit "ALL")]> kwargs
  else kwargs.

(** The statement of the JSON export. *)
Definition json_copy_statement (query final_path : str)
    (options : gmap (list N) PyVal) : str :=
  let kwargs := truthy_options options in
  let array :=
    if truth (get kwargs (lit "array") PyNone) then lit ", ARRAY TRUE" else [] in
  let compression :=
    lit ", COMPRESSION " ++ to_str (get kwargs (lit "compression") PyNone) in
  let date_format :=
    if truth (get kwargs (lit "date_format") PyNone)
    then lit ", DATEFORMAT '" ++ to_str (get kwargs (lit "date_format") PyNone)
         ++ lit "'"
    else [] in
  let ts_format :=
    if truth (get kwargs (lit "options.timestamp_format") PyNone)
    then lit ", TIMESTAMPFORMAT '"
         ++ to_str (get kwargs (lit "options.timestamp_format") PyNone)
         ++ lit "'"
    else [] in
  lit "copy (" ++ query ++ lit ") to '" ++ final_path ++ lit "' "
  ++ lit "(FORMAT JSON" ++ array ++ compression ++ date_format ++ ts_format
  ++ lit ")".

(** The [except (duckdb.Error, OSError)] of the CSV and Parquet writers. *)
Definition writer_outcome (title : str)
    (r : eresult exc unit * Connection) : outcome exc unit * Connection :=
  match r with
  | (EOk _, conn') => (Ok tt, conn')
  | (ERaise e, conn') =>
      if isinstance e Error || isinstance e OSError
      then (Exc (HarlequinCopyError (exc_str e) title), conn')
      else (Exc (Foreign e), conn')
  end.

Definition copy (query path format_name : str)
    (options : gmap (list N) PyVal) (conn : Connection)
  : outcome exc unit * Connection :=
  if negb (truthy query)
  then (Exc (HarlequinCopyError (lit "Cannot export result of empty query.") []),
        conn)
  else
    match execute query conn with
    | (Exc (HarlequinQueryError msg title), conn1) =>
        (Exc (HarlequinCopyError msg title), conn1)
    | (Exc other, conn1) => (Exc other, conn1)
    | (Ok None, conn1) =>
        (Exc (HarlequinCopyError
                (lit "Cannot export result of a DDL/DML query.") []), conn1)
    | (Ok (Some cursor), conn1) =>
      match expanduser path with
      | ERaise e => (Exc (Foreign e), conn1)
      | EOk final_path =>
        if Py.eqb format_name (lit "csv") then
          writer_outcome
            (lit "DuckDB raised an error when writing your query to a CSV file.")
            (write_csv (relation cursor) final_path (csv_kwargs options) conn1)
        else if Py.eqb format_name (lit "parquet") then
          writer_outcome
            (lit "DuckDB raised an error when writing your query to a Parquet file.")
            (write_parquet (relation cursor) final_path
               (get (truthy_options options) (lit "compression") PyNone) conn1)
        else if Py.eqb format_name (lit "json") then
          match execute (json_copy_statement query final_path options) conn1 with
          | (Exc (HarlequinQueryError msg _), conn2) =>
              (Exc (HarlequinCopyError msg
                      (lit "DuckDB raised an error when writing your query to a JSON file.")),
               conn2)
          | (Exc (Foreign e), conn2) =>
              if isinstance e OSError
              then (Exc (HarlequinCopyError (exc_str e)
                           (lit "DuckDB raised an error when writing your query to a JSON file.")),
                    conn2)
              else (Exc (Foreign e), conn2)
          | (Exc other, conn2) => (Exc other, conn2)
          | (Ok _, conn2) => (Ok tt, conn2)
          end
        else (Ok tt, conn1)
      end
    end.

(** *** [DuckDbConnection.validate_sql] *)

(** [text.replace("'", "''")]. *)
Definition escape_quotes (text : str) : str :=
  flat_map (fun c => if c =? 39 then [39; 39] else [c]) text.

(** [result.get("error_type", "") == "parser"]. *)
Definition is_parser (v : PyVal) : bool :=
  match v with
  | PyStr s => Py.eqb s (lit "parser")
  | _ => false
  end.

Definition validate_sql (text : str) (conn : Connection)
  : outcome exc str * Connection :=
  let escaped := escape_quotes text in
  match sql_fetchone (lit "select json_serialize_sql('" ++ escaped ++ lit "')")
                     conn with
  | (ERaise e, conn') => (Exc (Foreign e), conn')
  | (EOk parsed, conn') =>
      match json_loads parsed with
      | ERaise e => (Exc (Foreign e), conn')
      | EOk result =>
          if truth (get result (lit "error") (PyBool true))
             && is_parser (get result (lit "error_type") (PyStr []))
          then (Ok [], conn')
          else (Ok text, conn')
      end
  end.

(** *** [DuckDbAdapter.__init__] and the opening of the connection in
        [DuckDbAdapter.connect] *)

Record DuckDbAdapter := {
  conn_str : list str;
  init_path : str;
  no_init : bool;
  read_only : bool;
  allow_unsigned_extensions : bool;
  extensions : list str;
  force_install_extensions : bool;
  custom_extension_repo : option str;
  md_token : option str;
  md_saas : bool
}.

(** [__init__]: [resolve] is [str(Path(p).resolve())] and [home_duckdbrc] is
    [str(Path.home() / ".duckdbrc")]; the flags come as [bool | str].  On
    arguments of these types nothing in its [try] raises. *)
Definition DuckDbAdapter_init (conn_str : list str) (init_path : option str)
    (no_init read_only allow_unsigned_extensions : PyVal)
    (extension : option (list str)) (force_install_extensions : bool)
    (custom_extension_repo md_token : option str) (md_saas : bool)
  : DuckDbAdapter :=
  {| conn_str := match conn_str with [] => [lit ":memory:"] | _ => conn_str end;
     init_path := match init_path with
                  | Some p => resolve p
                  | None => home_duckdbrc
                  end;
     no_init := truth no_init;
     read_only := truth read_only;
     allow_unsigned_extensions := truth allow_unsigned_extensions;
     extensions := match extension with Some l => l | None => [] end;
     force_install_extensions := force_install_extensions;
     custom_extension_repo := custom_extension_repo;
     md_token := md_token;
     md_saas := md_saas |}.

(** [needle in hay] for strings. *)
Fixpoint contains (needle hay : str) : bool :=
  startswith hay needle
  || match hay with
     | [] => false
     | _ :: rest => contains needle rest
     end.

(** [bool(s)] for [str | None]. *)
Definition opt_truthy (s : option str) : bool :=
  match s with Some s => truthy s | None => false end.

Definition opt_str (s : option str) : str :=
  match s with Some s => s | None => lit "None" end.

(** [f"{primary_db}{token}{saas}"]. *)
Definition database_name (self : DuckDbAdapter) (primary_db : str) : str :=
  let token := if opt_truthy (md_token self)
               then lit "?token=" ++ opt_str (md_token self) else [] in
  let saas := if md_saas self then lit "?saas_mode=true" else [] in
  primary_db ++ token ++ saas.

(** [str(self.allow_unsigned_extensions).lower()]. *)
Definition allow_unsigned_config (self : DuckDbAdapter) : str :=
  if allow_unsigned_extensions self then lit "true" else lit "false".

(** [f"attach '{db}'{' (READ_ONLY)' if self.read_only else ''}"]. *)
Definition attach_statement (self : DuckDbAdapter) (db : str) : str :=
  lit "attach '" ++ db ++ lit "'"
  ++ (if read_only self then lit " (READ_ONLY)" else []).

(** [for db in other_dbs: connection.execute(...)]. *)
Fixpoint attach_all (self : DuckDbAdapter) (other_dbs : list str)
    (conn : Connection) : eresult exc unit * Connection :=
  match other_dbs with
  | [] => (EOk tt, conn)
  | db :: rest =>
      match conn_execute (attach_statement self db) conn with
      | (EOk _, conn') => attach_all self rest conn'
      | (ERaise e, conn') => (ERaise e, conn')
      end
  end.

(** The message of the first [except] of [connect]. *)
Definition connect_error_message (self : DuckDbAdapter) (msg : str) : str :=
  if contains (lit "sqlite_scanner") msg
  then lit "DuckDB raised the following error when trying to open "
       ++ lit "one or more database files:" ++ [LF] ++ lit "---" ++ [LF]
       ++ msg ++ [LF] ++ lit "---" ++ [LF; LF]
       ++ lit "Did you mean to use Harlequin's sqlite adapter instead? "
       ++ lit "Maybe try:" ++ [LF] ++ lit "harlequin -a sqlite "
       ++ join (lit " ") (conn_str self)
  else msg.

Definition connect_error (self : DuckDbAdapter) (e : exc) : raised exc :=
  if isinstance e CatalogException || isinstance e IOException
  then HarlequinConnectionError
         (connect_error_message self (exc_str e))
         (lit "DuckDB couldn't connect to your database.")
  else Foreign e.

(** [for extension in self.extensions: install_extension; load_extension]. *)
Fixpoint load_extensions (self : DuckDbAdapter) (exts : list str)
    (conn : Connection) : eresult exc unit * Connection :=
  match exts with
  | [] => (EOk tt, conn)
  | extension :: rest =>
      match install_extension extension (force_install_extensions self) conn with
      | (ERaise e, conn') => (ERaise e, conn')
      | (EOk _, conn') =>
          match load_extension extension conn' with
          | (ERaise e, conn'') => (ERaise e, conn'')
          | (EOk _, conn'') => load_extensions self rest conn''
          end
      end
  end.

(** [connect] after the primary database is opened, up to the init script:
    the other databases attached, the extension repository set and the
    extensions loaded. *)
Definition connect_open_rest (self : DuckDbAdapter) (other_dbs : list str)
    (connection : Connection) : outcome exc Connection :=
  match attach_all self other_dbs connection with
  | (ERaise e, _) => Exc (connect_error self e)
  | (EOk _, connection) =>
      match (if opt_truthy (custom_extension_repo self)
             then conn_execute
                    (lit "SET custom_extension_repository='"
                     ++ opt_str (custom_extension_repo self) ++ lit "';")
                    connection
             else (EOk tt, connection)) with
      | (ERaise e, _) => Exc (Foreign e)
      | (EOk _, connection) =>
          match load_extensions self (extensions self) connection with
          | (ERaise e, _) =>
              if isinstance e HTTPException || isinstance e IOException
              then Exc (HarlequinConnectionError (exc_str e)
                          (lit "DuckDB couldn't install or load your extension."))
              else Exc (Foreign e)
          | (EOk _, connection) => Ok connection
          end
      end
  end.

(** [connect] up to the init script. *)
Definition connect_open (self : DuckDbAdapter) : outcome exc Connection :=
  match conn_str self with
  | [] => Exc ValueError
  | primary_db :: other_dbs =>
      match duckdb_connect (database_name self primary_db) (read_only self)
                           (allow_unsigned_config self) with
      | ERaise e => Exc (connect_error self e)
      | EOk connection => connect_open_rest self other_dbs connection
      end
  end.





End Layer.

(** How an SQL engine reads the body of a string literal: two quotes are one
    quote, a single quote ends the literal. *)
Fixpoint sql_unquote (body : str) : option str :=
  match body with
  | [] => Some []
  | c :: rest =>
      if c =? 39 then
        match rest with
        | c' :: rest' =>
            if c' =? 39 then cons 39 <$> sql_unquote rest' else None
        | [] => None
        end
      else cons c <$> sql_unquote rest
  end.

(** A call that returned, or raised a [HarlequinCopyError]. *)
Definition returns_or_copy_error {E A C} (r : outcome E A * C) : Prop :=
  match r with
  | (Ok _, _) => True
  | (Exc (HarlequinCopyError _ _), _) => True
  | _ => False
  end.

(** A call that returned, raised a [HarlequinCopyError], or let through an
    exception from below that is one of [leak]. *)
Definition returns_or_copy_error_or {E A C} (leak : E -> Prop)
    (r : outcome E A * C) : Prop :=
  match r with
  | (Ok _, _) => True
  | (Exc (HarlequinCopyError _ _), _) => True
  | (Exc (Foreign e), _) => leak e
  | _ => False
  end.

(** What the engine gave, as the writers give it: the JSON export is one
    statement, and its result is dropped. *)
Definition statement_outcome {E A C} (r : eresult E A * C) : eresult E unit * C :=
  match r with
  | (EOk _, conn') => (EOk tt, conn')
  | (ERaise e, conn') => (ERaise e, conn')
  end.

End Conn.

(** An engine for examples: its connection is the list of the calls it
    accepted; a query that holds "boom" is refused with a parser error, a
    database whose name holds ".sqlite" cannot be opened, a file under
    "/readonly/" cannot be written, and the user "nobody" has no home
    directory. *)
Module Mock.
Import Conn.

Inductive mock_exc : Type :=
  | ParserException (msg : str)
  | IOError (msg : str)
  | PermissionError (msg : str)
  | RuntimeError (msg : str).

Definition mock_isinstance (e : mock_exc) (name : exc_name) : bool :=
  match e, name with
  | ParserException _, Error => true
  | IOError _, Error => true
  | IOError _, IOException => true
  | PermissionError _, OSError => true
  | _, _ => false
  end.

Definition mock_str (e : mock_exc) : str :=
  match e with
  | ParserException msg => msg
  | IOError msg => msg
  | PermissionError msg => msg
  | RuntimeError msg => msg
  end.

Definition mock_write (kind path : str) (log : list str)
  : eresult mock_exc unit * list str :=
  if contains (lit "/readonly/") path
  then (ERaise (PermissionError (lit "Permission denied: " ++ path)), log)
  else (EOk tt, log ++ [kind ++ lit " " ++ path]).

#[export] Instance mock : DuckDB := {|
  exc := mock_exc;
  isinstance := mock_isinstance;
  exc_str := mock_str;
  Connection := list str;
  Relation := str;
  Table := str;
  duckdb_connect := fun database _ _ =>
    if contains (lit ".sqlite") database
    then ERaise (IOError (lit "IO Error: Extension sqlite_scanner not found"))
    else EOk [lit "connect " ++ database];
  conn_execute := fun statement log => (EOk tt, log ++ [statement]);
  conn_sql := fun query log =>
    if contains (lit "boom") query
    then (ERaise (ParserException (lit "Parser Error: syntax error at boom")), log)
    else if startswith query (lit "select")
         then (EOk (Some query), log ++ [query])
         else (EOk None, log ++ [query]);
  sql_fetchone := fun statement log => (EOk statement, log);
  install_extension := fun extension _ log =>
    (EOk tt, log ++ [lit "install " ++ extension]);
  load_extension := fun extension log =>
    (EOk tt, log ++ [lit "load " ++ extension]);
  rel_columns := fun _ => [lit "id"; lit "tags"];
  rel_dtypes := fun _ => [lit "INTEGER"; lit "VARCHAR[]"];
  rel_limit := fun rel _ => EOk rel;
  fetch_arrow_table := fun rel => EOk rel;
  write_csv := fun _ path _ log => mock_write (lit "csv") path log;
  write_parquet := fun _ path _ log => mock_write (lit "parquet") path log;
  json_loads := fun parsed =>
    EOk (if contains (lit "selec ") parsed
         then {[ lit "error" := PyBool true;
                 lit "error_type" := PyStr (lit "parser") ]}
         else {[ lit "error" := PyBool false ]});
  expanduser := fun path =>
    if startswith path (lit "~nobody")
    then ERaise (RuntimeError (lit "Could not determine home directory."))
    else if startswith path (lit "~/")
         then EOk (lit "/home/u" ++ drop 1 path)
         else EOk path;
  resolve := fun path => path;
  home_duckdbrc := lit "/home/u/.duckdbrc"
|}.

End Mock.
(** * Proofs *)

(** ** Facts about the string primitives *)

Lemma split_cons sep s : exists piece pieces, split sep s = piece :: pieces.
Proof.
  induction s as [|c s [p [ps IH]]]; simpl; [eauto|].
  destruct (c =? sep); [eauto|]. rewrite IH. eauto.
Qed.

Lemma getitem_split_0 sep s : exists piece, getitem (split sep s) 0 = Return piece.
Proof. destruct (split_cons sep s) as (p & ps & ->). by exists p. Qed.

Lemma split_head sep s : getitem (split sep s) 0 = Return (before sep s).
Proof.
  induction s as [|c s IH]; simpl; [done|].
  destruct (c =? sep); [done|].
  destruct (split_cons sep s) as (p & ps & E). rewrite E in *.
  cbv [getitem] in *. simpl in *. by inversion IH.
Qed.

Lemma before_before_strip s : before 91 (before 40 s) = strip_type_params s.
Proof.
  induction s as [|c s IH]; simpl; [done|].
  destruct (N.eqb_spec c 40) as [->|H40]; simpl; [done|].
  destruct (c =? 91); [done|]. by rewrite IH.
Qed.

Lemma base_type_of_total native_type :
  base_type_of native_type = Return (strip_type_params native_type).
Proof.
  unfold base_type_of. rewrite split_head. simpl.
  by rewrite split_head, before_before_strip.
Qed.

(** No tag of the column table is the unknown marker. *)
Lemma COLUMN_TYPE_MAPPING_known key v :
  COLUMN_TYPE_MAPPING !! key = Some v -> v <> UNKNOWN_TYPE.
Proof.
  assert (H : map_Forall (fun _ v => v <> UNKNOWN_TYPE) COLUMN_TYPE_MAPPING).
  { apply (bool_decide_unpack _). by vm_compute. }
  intros E. exact (H key v E).
Qed.

Lemma dict_get_unknown key :
  dict_get COLUMN_TYPE_MAPPING key UNKNOWN_TYPE = UNKNOWN_TYPE
  <-> COLUMN_TYPE_MAPPING !! key = None.
Proof.
  unfold dict_get. destruct (COLUMN_TYPE_MAPPING !! key) as [v|] eqn:E.
  - split; [|done]. intros ->. by destruct (COLUMN_TYPE_MAPPING_known key _ E).
  - done.
Qed.

(** ** TypeNormalizer *)

Lemma short_column_type_eq native_type :
  _short_column_type native_type =
  Return (let short := dict_get COLUMN_TYPE_MAPPING
                         (strip_type_params native_type) UNKNOWN_TYPE in
          if endswith native_type (lit "[]")
          then lit "[" ++ short ++ lit "]" else short).
Proof.
  unfold _short_column_type. rewrite base_type_of_total. cbn [bind].
  by destruct (endswith native_type (lit "[]")).
Qed.

Lemma brackets_inj (a b : str) :
  lit "[" ++ a ++ lit "]" = lit "[" ++ b ++ lit "]" -> a = b.
Proof. intros H. apply app_inv_head in H. by apply app_inv_tail in H. Qed.

(** C3, as the claim states it, fails: the native type "FOO[]" has the base
    name "FOO", which is absent from the table, and is normalized to "[?]",
    not to the unknown marker "?". *)
Lemma short_column_type_unknown_iff_absent_fails :
  exists tag,
    _short_column_type (lit "FOO[]") = Return tag
    /\ strip_type_params (lit "FOO[]") = lit "FOO"
    /\ ~ (tag = UNKNOWN_TYPE
          <-> COLUMN_TYPE_MAPPING !! strip_type_params (lit "FOO[]") = None).
Proof.
  exists (lit "[?]"). split; [by vm_compute|]. split; [by vm_compute|].
  intros [_ H]. by specialize (H eq_refl).
Qed.

(** C3, amended: [_short_column_type] returns for every native type string
    (it never raises); the base name it looks up is the input up to its first
    "(" or "["; the base name is absent from the table iff the result is the
    unknown marker, bare ("?") when the input does not end with "[]" and
    wrapped ("[?]") when it does; so the result is exactly "?" iff the base
    name is absent and the input does not end with "[]". *)
Theorem short_column_type_unknown (native_type : str) :
  exists tag,
    _short_column_type native_type = Return tag
    /\ base_type_of native_type = Return (strip_type_params native_type)
    /\ (COLUMN_TYPE_MAPPING !! strip_type_params native_type = None
        <-> tag = if endswith native_type (lit "[]")
                  then lit "[?]" else UNKNOWN_TYPE)
    /\ (tag = UNKNOWN_TYPE
        <-> COLUMN_TYPE_MAPPING !! strip_type_params native_type = None
            /\ endswith native_type (lit "[]") = false).
Proof.
  eexists. split; [apply short_column_type_eq|].
  split; [apply base_type_of_total|].
  cbv zeta. rewrite <- dict_get_unknown.
  generalize (dict_get COLUMN_TYPE_MAPPING (strip_type_params native_type)
                UNKNOWN_TYPE).
  intros short. destruct (endswith native_type (lit "[]")).
  - split.
    + split; [by intros ->|]. apply (brackets_inj short (lit "?")).
    + split; [|by intros [_ ?]]. intros H.
      apply (f_equal (@length char)) in H.
      rewrite !length_app in H. cbn in H. lia.
  - split; [done|]. split; [done | by intros [? _]].
Qed.

(** ** Pieces of [split] and POSIX paths *)

Lemma split_no_sep sep (a : str) : sep ∉ a -> split sep a = [a].
Proof.
  induction a as [|c a IH]; [done|]. intros [Hc Ha]%not_elem_of_cons.
  cbn [split]. destruct (N.eqb_spec c sep) as [->|_]; [done|].
  by rewrite (IH Ha).
Qed.

Lemma split_app_sep sep (a b : str) :
  sep ∉ a -> split sep (a ++ sep :: b) = a :: split sep b.
Proof.
  induction a as [|c a IH]; cbn [app split].
  - intros _. by rewrite N.eqb_refl.
  - intros [Hc Ha]%not_elem_of_cons.
    destruct (N.eqb_spec c sep) as [->|_]; [done|]. by rewrite (IH Ha).
Qed.

Lemma split_piece_no_sep sep (s piece : str) :
  piece ∈ split sep s -> sep ∉ piece.
Proof.
  revert piece. induction s as [|c s IH]; intros piece; cbn [split].
  - intros ->%list_elem_of_singleton. apply not_elem_of_nil.
  - destruct (split_cons sep s) as (p & ps & E). rewrite E in *.
    destruct (N.eqb_spec c sep) as [->|Hc].
    + intros [->|Hin]%elem_of_cons; [apply not_elem_of_nil | by apply IH].
    + intros [->|Hin]%elem_of_cons.
      * apply not_elem_of_cons. split; [done|]. apply IH. by left.
      * apply IH. by right.
Qed.

Lemma split_piece_chars sep (s piece : str) x :
  piece ∈ split sep s -> x ∈ piece -> x ∈ s.
Proof.
  revert piece. induction s as [|c s IH]; intros piece; cbn [split].
  - by intros ->%list_elem_of_singleton.
  - destruct (split_cons sep s) as (p & ps & E). rewrite E in *.
    destruct (c =? sep).
    + intros [->|Hin]%elem_of_cons; [by intros ?%elem_of_nil|].
      intros Hx. right. by apply (IH piece).
    + intros [->|Hin]%elem_of_cons.
      * intros [->|Hx]%elem_of_cons; [by left|]. right.
        apply (IH p); [by left|done].
      * intros Hx. right. apply (IH piece); [by right|done].
Qed.

Lemma split_ws_chars (s token : str) x :
  token ∈ split_ws s -> x ∈ token -> x ∈ s.
Proof.
  revert token. induction s as [|c s IH]; intros token; cbn [split_ws].
  - by intros ?%elem_of_nil.
  - destruct (isspace c).
    + intros Hin Hx. right. by apply (IH token).
    + destruct s as [|c' s']; [by intros ->%list_elem_of_singleton|].
      destruct (isspace c').
      * intros [->|Hin]%elem_of_cons.
        -- intros ->%list_elem_of_singleton. by left.
        -- intros Hx. right. by apply (IH token).
      * destruct (split_ws (c' :: s')) as [|w ws].
        -- intros ->%list_elem_of_singleton ->%list_elem_of_singleton. by left.
        -- intros [->|Hin]%elem_of_cons.
           ++ intros [->|Hx]%elem_of_cons; [by left|]. right.
              apply (IH w); [by left|done].
           ++ intros Hx. right. apply (IH token); [by right|done].
Qed.

Lemma join_chars (sep : str) (parts : list str) x :
  x ∈ join sep parts -> x ∈ sep \/ exists part, part ∈ parts /\ x ∈ part.
Proof.
  induction parts as [|p parts IH]; [by intros ?%elem_of_nil|].
  destruct parts as [|p' parts].
  - intros Hx. right. exists p. split; [by left|done].
  - cbn [join]. cbn [join] in IH. rewrite !elem_of_app.
    intros [Hx|[Hx|Hx]].
    + right. exists p. split; [by left|done].
    + by left.
    + destruct (IH Hx) as [?|(part & Hin & ?)]; [by left|].
      right. exists part. split; [by right|done].
Qed.

Module PosixPathFacts.
Import PosixPath.

Lemma lstrip_sep_chars part x : x ∈ lstrip_sep part -> x ∈ part.
Proof.
  induction part as [|c part IH]; [done|]. cbn [lstrip_sep].
  destruct (c =? sep); [|done]. intros Hx. right. by apply IH.
Qed.

Lemma parse_parts_chars p root names :
  parse_parts p = (root, names) ->
  (forall x, x ∈ root -> x = sep)
  /\ (forall part x, part ∈ names -> x ∈ part -> x ∈ p).
Proof.
  unfold parse_parts, splitroot.
  destruct (startswith p [sep]).
  - destruct (length p - length (lstrip_sep p) =? 2)%nat; intros [= <- <-].
    + split.
      * intros x [->|Hx]%elem_of_cons; [done|].
        by apply list_elem_of_singleton in Hx.
      * intros part x [Hin _]%list_elem_of_In%filter_In Hx.
        apply lstrip_sep_chars.
        by apply (split_piece_chars sep _ part); [apply list_elem_of_In|].
    + split.
      * by intros x ->%list_elem_of_singleton.
      * intros part x [Hin _]%list_elem_of_In%filter_In Hx.
        apply lstrip_sep_chars.
        by apply (split_piece_chars sep _ part); [apply list_elem_of_In|].
  - intros [= <- <-]. split; [by intros x ?%elem_of_nil|].
    intros part x [Hin _]%list_elem_of_In%filter_In Hx.
    by apply (split_piece_chars sep _ part); [apply list_elem_of_In|].
Qed.

(** [str(Path(p))] has no character beyond those of [p], "/" and ".". *)
Lemma to_str_chars p x : x ∈ to_str p -> x ∈ p \/ x = sep \/ x = 46.
Proof.
  unfold to_str. destruct (parse_parts p) as [root names] eqn:E.
  apply parse_parts_chars in E as [Hroot Hnames].
  destruct (truthy (root ++ join [sep] names)).
  - intros [Hx|Hx]%elem_of_app; [right; left; by apply Hroot|].
    apply join_chars in Hx as [Hx|(part & Hin & Hx)].
    + right; left. by apply list_elem_of_singleton in Hx.
    + left. by apply (Hnames part).
  - intros ->%list_elem_of_singleton. by right; right.
Qed.

Lemma last_elem_of (names : list str) :
  names <> [] -> List.last names [] ∈ names.
Proof.
  induction names as [|n names IH]; [done|]. intros _.
  destruct names as [|n' names]; [by left|].
  right. by apply IH.
Qed.

Lemma name_chars p x : x ∈ name p -> x ∈ p.
Proof.
  unfold name. destruct (parse_parts p) as [root names] eqn:E.
  apply parse_parts_chars in E as [_ Hnames].
  destruct names as [|n names]; [by intros ?%elem_of_nil|].
  intros Hx. apply (Hnames (List.last (n :: names) [])); [|done].
  by apply last_elem_of.
Qed.

(** [Path(p).stem] has no character beyond those of [p]. *)
Lemma stem_chars p x : x ∈ stem p -> x ∈ p.
Proof.
  unfold stem. destruct (rfind 46 (name p)) as [i|]; [|apply name_chars].
  destruct ((0 <? i)%nat && (i + 1 <? length (name p))%nat);
    [|apply name_chars].
  intros (j & Hj & _)%elem_of_take. apply name_chars.
  by apply list_elem_of_lookup_2 in Hj.
Qed.

Lemma rfind_absent c (s : str) : c ∉ s -> rfind c s = None.
Proof.
  induction s as [|x s IH]; [done|]. intros [Hx Hs]%not_elem_of_cons.
  cbn [rfind]. rewrite (IH Hs).
  destruct (N.eqb_spec x c) as [->|_]; [done|done].
Qed.

Lemma rfind_last c (a b : str) :
  c ∉ b -> rfind c (a ++ c :: b) = Some (length a).
Proof.
  intros Hb. induction a as [|x a IH]; cbn [app rfind length].
  - by rewrite (rfind_absent c b Hb), N.eqb_refl.
  - by rewrite IH.
Qed.

(** A file name [base.ext] in the current directory is printed as it is, and
    its stem is [base]. *)
Lemma file_name_stem (base ext : str) :
  base <> [] -> ext <> [] -> sep ∉ base -> sep ∉ ext -> 46 ∉ ext ->
  to_str (base ++ [46] ++ ext) = base ++ [46] ++ ext
  /\ stem (base ++ [46] ++ ext) = base.
Proof.
  intros Hbase Hext Hsb Hse Hdot.
  set (file := base ++ [46] ++ ext).
  assert (Hsep : sep ∉ file).
  { unfold file. rewrite !not_elem_of_app, not_elem_of_cons.
    repeat split; [done| |apply not_elem_of_nil|done]. done. }
  assert (Hlen : length file = (length base + 1 + length ext)%nat).
  { unfold file. rewrite !length_app. cbn [length]. lia. }
  assert (Hparse : parse_parts file = ([], [file])).
  { unfold parse_parts, splitroot.
    assert (Hstart : startswith file [sep] = false).
    { destruct file as [|c rest]; [done|]. cbn [startswith].
      apply not_elem_of_cons in Hsep as [Hc _].
      destruct (N.eqb_spec c sep); [done|done]. }
    rewrite Hstart, (split_no_sep sep file Hsep). cbn [List.filter].
    assert (Htruthy : truthy file = true).
    { destruct file; [by destruct base|done]. }
    assert (Hnotdot : Py.eqb file (lit ".") = false).
    { unfold Py.eqb. apply bool_decide_eq_false. intros E.
      apply (f_equal (@length char)) in E. rewrite Hlen in E. cbn in E.
      destruct base; [done|]. destruct ext; [done|]. cbn [length] in E. lia. }
    by rewrite Htruthy, Hnotdot. }
  split.
  - unfold to_str. rewrite Hparse. cbn [app join].
    destruct file; [by destruct base|done].
  - unfold stem, name. rewrite Hparse. cbn [List.last].
    unfold file at 1. cbn [app]. rewrite (rfind_last 46 base ext Hdot).
    rewrite Hlen.
    assert (H0 : (0 <? length base)%nat = true).
    { apply Nat.ltb_lt. destruct base; [done|]. cbn [length]. lia. }
    assert (H1 : (length base + 1 <? length base + 1 + length ext)%nat = true).
    { apply Nat.ltb_lt. destruct ext; [done|]. cbn [length]. lia. }
    rewrite H0, H1. cbn [andb]. unfold file. by rewrite take_app_length.
Qed.

End PosixPathFacts.

(** ** ScriptRewriter *)

Section RewriterFacts.
Context {flavour : PathFlavour}.

Lemma rewrite_dot_open_rule command :
  _rewrite_dot_open command = Return (open_rule (drop 1 (split_ws command))).
Proof.
  unfold _rewrite_dot_open.
  destruct (drop 1 (split_ws command)) as [|a0 [|a1 [|a2 rest]]]; try done.
  simpl. by destruct (Py.eqb a0 (lit "--readonly")).
Qed.

Lemma startswith_app s p : startswith (p ++ s) p = true.
Proof. induction p as [|c p IH]; simpl; [done|]. by rewrite N.eqb_refl. Qed.

Lemma startswith_inv s p : startswith s p = true -> exists t, s = p ++ t.
Proof.
  revert s. induction p as [|c p IH]; intros s; simpl; [by exists s|].
  destruct s as [|x s]; [done|].
  destruct (N.eqb_spec x c) as [->|]; simpl; [|done].
  intros [t ->]%IH. by exists t.
Qed.

Lemma startswith_open_dot command :
  startswith command (lit ".open") = true -> startswith command (lit ".") = true.
Proof. intros [t ->]%startswith_inv. done. Qed.

Lemma attach_use_attach option db_path :
  startswith (attach_use option db_path) (lit "attach ") = true.
Proof.
  unfold attach_use. change (lit "attach '") with (lit "attach " ++ lit "'").
  rewrite <- app_assoc. apply startswith_app.
Qed.

Lemma open_rule_attach args : startswith (open_rule args) (lit "attach ") = true.
Proof.
  unfold open_rule. destruct args as [|a0 [|a1 [|a2 rest]]];
    [done | apply attach_use_attach | | apply attach_use_attach].
  destruct (Py.eqb a0 (lit "--readonly")); apply attach_use_attach.
Qed.

Lemma rewrite_init_command_open command :
  startswith command (lit ".open") = true ->
  _rewrite_init_command command = _rewrite_dot_open command.
Proof.
  intros H. unfold _rewrite_init_command.
  by rewrite (startswith_open_dot _ H), H.
Qed.

Lemma rewrite_init_command_total command :
  exists sql, _rewrite_init_command command = Return sql.
Proof.
  unfold _rewrite_init_command.
  destruct (startswith command (lit ".")); cbn [negb]; [|eauto].
  destruct (startswith command (lit ".open")); [|eauto].
  rewrite rewrite_dot_open_rule. eauto.
Qed.

End RewriterFacts.

(** C2: a command that starts with ".open" is rewritten by the open-rewrite
    rule applied to its whitespace tokens after the first (the command name):
    no argument gives the in-memory attach; exactly two arguments with the
    first equal to "--readonly" give the READ_ONLY attach of the second, named
    by its stem; anything else gives the plain attach of the first argument,
    named by its stem.  On POSIX paths a file name "base.ext" is printed as
    it is and its stem is "base", the name without its extension, and
    ".open --readonly mydata.db" becomes
    "attach 'mydata.db' (READ_ONLY) as mydata; use mydata;". *)
Theorem rewrite_dot_open_correct :
  (forall (flavour : PathFlavour) (command : str),
     startswith command (lit ".open") = true ->
     let args := drop 1 (split_ws command) in
     _rewrite_init_command command = _rewrite_dot_open command
     /\ (args = [] ->
         _rewrite_dot_open command = Return (lit "attach ':memory:'; use memory;"))
     /\ (forall path, args = [lit "--readonly"; path] ->
         _rewrite_dot_open command =
         Return (lit "attach '" ++ Path_str path ++ lit "' (READ_ONLY) as "
                 ++ Path_stem path ++ lit "; use " ++ Path_stem path ++ lit ";"))
     /\ (forall first rest, args = first :: rest ->
         ~ (length args = 2%nat /\ first = lit "--readonly") ->
         _rewrite_dot_open command =
         Return (lit "attach '" ++ Path_str first ++ lit "' as "
                 ++ Path_stem first ++ lit "; use " ++ Path_stem first ++ lit ";")))
  /\ (forall base ext : str,
        base <> [] -> ext <> [] ->
        47 ∉ base -> 47 ∉ ext -> 46 ∉ ext ->
        @Path_str posix_flavour (base ++ lit "." ++ ext) = base ++ lit "." ++ ext
        /\ @Path_stem posix_flavour (base ++ lit "." ++ ext) = base)
  /\ @_rewrite_init_command posix_flavour (lit ".open --readonly mydata.db")
     = Return (lit "attach 'mydata.db' (READ_ONLY) as mydata; use mydata;").
Proof.
  split; [|split; [apply PosixPathFacts.file_name_stem | by vm_compute]].
  intros flavour command Hopen args.
  split; [by apply rewrite_init_command_open|].
  rewrite rewrite_dot_open_rule. fold args.
  split; [by intros ->|]. split.
  - intros path ->. done.
  - intros first rest -> Hnot. destruct rest as [|second [|third rest]]; try done.
    simpl. unfold Py.eqb. case_bool_decide as E; [|done].
    destruct Hnot. by split.
Qed.

Lemma rewrite_dot_open_correct_witness :
  @_rewrite_dot_open posix_flavour (lit ".open  data/sales.duckdb")
  = Return (lit "attach 'data/sales.duckdb' as sales; use sales;").
Proof.
  destruct rewrite_dot_open_correct as [H _].
  destruct (H posix_flavour (lit ".open  data/sales.duckdb") eq_refl)
    as (_ & _ & _ & H3).
  apply (H3 (lit "data/sales.duckdb") []); [reflexivity|].
  intros [E _]. discriminate E.
Defined.

(** C8: the rewriter returns for every command (it never raises); a command
    that does not start with "." is returned unchanged; a command that starts
    with "." but not with the open command ".open" is rewritten to the empty
    string, e.g. ".help". *)
Theorem rewrite_init_command_cases (flavour : PathFlavour) (command : str) :
  (exists sql, _rewrite_init_command command = Return sql)
  /\ (startswith command (lit ".") = false ->
      _rewrite_init_command command = Return command)
  /\ (startswith command (lit ".") = true ->
      startswith command (lit ".open") = false ->
      _rewrite_init_command command = Return [])
  /\ _rewrite_init_command (lit ".help") = Return (lit "").
Proof.
  split; [apply rewrite_init_command_total|].
  unfold _rewrite_init_command.
  split; [by intros ->|]. split; [by intros -> ->|done].
Qed.

Lemma rewrite_init_command_cases_witness :
  @_rewrite_init_command posix_flavour (lit "select 1; select 2;")
  = Return (lit "select 1; select 2;")
  /\ @_rewrite_init_command posix_flavour (lit ".mode csv") = Return [].
Proof.
  split.
  - destruct (rewrite_init_command_cases posix_flavour (lit "select 1; select 2;"))
      as (_ & H & _).
    apply H. reflexivity.
  - destruct (rewrite_init_command_cases posix_flavour (lit ".mode csv"))
      as (_ & _ & H & _).
    apply H; reflexivity.
Defined.

(** C10: the dispatch is by prefix: every command whose text starts with
    ".open", whatever follows these five characters, is rewritten by the
    open-rewrite rule applied to its whitespace tokens after the first, and is
    not dropped; on POSIX paths ".openx foo.db" becomes
    "attach 'foo.db' as foo; use foo;". *)
Theorem rewrite_open_prefix_dispatch :
  (forall (flavour : PathFlavour) (tail : str),
     let command := lit ".open" ++ tail in
     _rewrite_init_command command = _rewrite_dot_open command
     /\ _rewrite_init_command command
        = Return (open_rule (drop 1 (split_ws command)))
     /\ _rewrite_init_command command <> Return [])
  /\ @_rewrite_init_command posix_flavour (lit ".openx foo.db")
     = Return (lit "attach 'foo.db' as foo; use foo;").
Proof.
  split; [|by vm_compute].
  intros flavour tail command.
  assert (H : startswith command (lit ".open") = true) by apply startswith_app.
  clearbody command.
  rewrite (rewrite_init_command_open _ H), rewrite_dot_open_rule.
  split; [done|]. split; [done|].
  intros E. injection E as E.
  pose proof (open_rule_attach (drop 1 (split_ws command))) as Ha.
  by rewrite E in Ha.
Qed.

(** ** ScriptSplitter *)

(** The loop invariant: with [seen] the lines already visited and [i] the
    start of the pending lines, the loop over the remaining lines emits what
    the scan emits from the pending lines [seen[i:]]. *)
Lemma split_script_loop (todo seen commands : list str) (i : nat) :
  (i <= length seen)%nat ->
  let '(commands', i') :=
    fold_left (split_script_step (seen ++ todo))
              (combine (seq (length seen) (length todo)) todo) (commands, i) in
  commands' ++ [join [LF] (slice_from (seen ++ todo) i')]
  = commands ++ scan_lines (drop i seen) todo.
Proof.
  revert seen commands i.
  induction todo as [|line todo IH]; intros seen commands i Hi.
  - simpl. unfold slice_from. by rewrite app_nil_r.
  - cbn [length seq combine fold_left scan_lines split_script_step].
    specialize (IH (seen ++ [line])).
    rewrite <- app_assoc in IH. cbn [app] in IH.
    rewrite length_app in IH. cbn [length] in IH.
    replace (length seen + 1)%nat with (S (length seen)) in IH by lia.
    destruct (startswith line (lit ".")).
    + specialize (IH ((commands ++ [join [LF] (slice (seen ++ line :: todo) i (length seen))])
                        ++ [line]) (length seen + 1)%nat).
      destruct (fold_left _ _ _) as [commands' i'].
      rewrite IH by lia.
      rewrite drop_ge by (rewrite length_app; simpl; lia).
      unfold slice. rewrite drop_app_le by lia.
      rewrite take_app_le by (rewrite length_drop; lia).
      rewrite take_ge by (rewrite length_drop; lia).
      by rewrite <- !app_assoc.
    + specialize (IH commands i).
      destruct (fold_left _ _ _) as [commands' i'].
      rewrite IH by lia. by rewrite drop_app_le by lia.
Qed.

Lemma split_script_commands_scan lines :
  split_script_commands lines = scan_lines [] lines.
Proof.
  unfold split_script_commands, enumerate.
  pose proof (split_script_loop lines [] [] 0 (Nat.le_refl _)) as H.
  simpl in H. by destruct (fold_left _ _ _).
Qed.

Lemma scan_lines_sql pending lines :
  Forall sql_line lines ->
  scan_lines pending lines = [join [LF] (pending ++ lines)].
Proof.
  intros H. revert pending.
  induction H as [|line lines Hl _ IH]; intros pending; cbn [scan_lines app].
  - by rewrite app_nil_r.
  - rewrite Hl, IH. by rewrite <- app_assoc.
Qed.

Lemma scan_lines_boundary pending before_dot dot_line rest :
  Forall sql_line before_dot ->
  startswith dot_line (lit ".") = true ->
  scan_lines pending (before_dot ++ dot_line :: rest)
  = join [LF] (pending ++ before_dot) :: dot_line :: scan_lines [] rest.
Proof.
  intros H Hdot. revert pending.
  induction H as [|line lines Hl _ IH]; intros pending; cbn [scan_lines app].
  - by rewrite Hdot, app_nil_r.
  - rewrite Hl, IH. by rewrite <- app_assoc.
Qed.

(** C1: the commands the loop emits, line by line: where the lines are some
    lines that do not start with ".", then a line that does, then the rest, it
    emits the newline-join of the former, then the dot line itself, then what
    it emits for the rest; where no line starts with ".", it emits the
    newline-join of all of them; the result of the splitter is these commands
    without the empty ones, each trimmed; and the script "select 1;", ".open
    foo.db", "select 2;" on three lines gives exactly these three commands. *)
Theorem split_script_scan :
  (forall before_dot dot_line rest,
     Forall sql_line before_dot ->
     startswith dot_line (lit ".") = true ->
     split_script_commands (before_dot ++ dot_line :: rest)
     = join [LF] before_dot :: dot_line :: split_script_commands rest)
  /\ (forall lines,
        Forall sql_line lines ->
        split_script_commands lines = [join [LF] lines])
  /\ (forall script,
        _split_script script
        = List.map strip
            (List.filter truthy (split_script_commands (splitlines script))))
  /\ _split_script (lit "select 1;" ++ [LF] ++ lit ".open foo.db" ++ [LF]
                    ++ lit "select 2;")
     = [lit "select 1;"; lit ".open foo.db"; lit "select 2;"].
Proof.
  split; [|split; [|split]].
  - intros before_dot dot_line rest H Hdot.
    rewrite !split_script_commands_scan.
    by rewrite (scan_lines_boundary [] _ _ _ H Hdot).
  - intros lines H. rewrite split_script_commands_scan.
    by rewrite (scan_lines_sql [] _ H).
  - done.
  - by vm_compute.
Qed.

Lemma split_script_scan_witness :
  split_script_commands
    ([lit "select 1"; lit " , 2;"] ++ lit ".mode csv" :: [lit "select 3;"])
  = [lit "select 1" ++ [LF] ++ lit " , 2;"; lit ".mode csv"; lit "select 3;"].
Proof.
  destruct split_script_scan as (Hdot & Hsql & _).
  rewrite (Hdot [lit "select 1"; lit " , 2;"] (lit ".mode csv") [lit "select 3;"]).
  - rewrite (Hsql [lit "select 3;"]); [reflexivity|].
    repeat constructor.
  - repeat constructor.
  - reflexivity.
Defined.

(** *** Trimming *)

Lemma lstrip_blank_app a s : blank a -> lstrip (a ++ s) = lstrip s.
Proof. induction 1 as [|c a Hc _ IH]; simpl; [done|]. by rewrite Hc. Qed.

Lemma lstrip_text c s : isspace c = false -> lstrip (c :: s) = c :: s.
Proof. intros H. simpl. by rewrite H. Qed.

Lemma lstrip_split s :
  exists a, blank a /\ s = a ++ lstrip s
            /\ (lstrip s = [] \/ exists c t, lstrip s = c :: t /\ isspace c = false).
Proof.
  induction s as [|c s (a & Ha & Hs & Hl)]; simpl.
  - exists []. repeat split; [constructor | by left].
  - destruct (isspace c) eqn:Hc.
    + exists (c :: a). repeat split; [by constructor | cbn [app]; by f_equal | done].
    + exists []. repeat split; [constructor | right; eauto].
Qed.

Lemma lstrip_app_text s c : isspace c = false -> lstrip (s ++ [c]) = lstrip s ++ [c].
Proof.
  intros Hc. induction s as [|x s IH]; simpl; [by rewrite Hc|].
  by destruct (isspace x).
Qed.

Lemma rstrip_blank_app s b : blank b -> rstrip (s ++ b) = rstrip s.
Proof.
  intros Hb. unfold rstrip. rewrite rev_app_distr, lstrip_blank_app; [done|].
  by apply List.Forall_rev.
Qed.

Lemma rstrip_text c s : isspace c = false -> rstrip (c :: s) = c :: rstrip s.
Proof.
  intros Hc. unfold rstrip. simpl. rewrite lstrip_app_text by done.
  by rewrite rev_app_distr.
Qed.

Lemma rstrip_idemp s : rstrip (rstrip s) = rstrip s.
Proof.
  unfold rstrip. rewrite rev_involutive. f_equal.
  destruct (lstrip_split (rev s)) as (_ & _ & _ & [->|(c & t & -> & Hc)]); [done|].
  by apply lstrip_text.
Qed.

Lemma strip_idemp s : strip (strip s) = strip s.
Proof.
  unfold strip.
  destruct (lstrip_split s) as (_ & _ & _ & [->|(c & t & -> & Hc)]); [done|].
  rewrite (rstrip_text c t Hc), (lstrip_text _ _ Hc).
  by rewrite <- (rstrip_text c t Hc), rstrip_idemp.
Qed.

Lemma lstrip_nil_blank s : lstrip s = [] -> blank s.
Proof.
  intros H. destruct (lstrip_split s) as (a & Ha & Hs & _).
  rewrite H, app_nil_r in Hs. by subst.
Qed.

Lemma strip_has_text s : has_text s -> strip s <> [].
Proof.
  intros (x & Hx & Hsp). unfold strip.
  destruct (lstrip_split s) as (a & Ha & Hs & [E|(c & t & E & Hc)]).
  - apply lstrip_nil_blank in E. unfold blank in E. rewrite Forall_forall in E.
    apply E in Hx. congruence.
  - rewrite E, (rstrip_text c t Hc). done.
Qed.

Lemma strip_app_blank s b : blank b -> strip (s ++ b) = strip s.
Proof.
  intros Hb. unfold strip.
  destruct (lstrip_split s) as (a & Ha & Hs & [E|(c & t & E & Hc)]).
  - rewrite E. apply lstrip_nil_blank in E.
    assert (Hall : blank (s ++ b)) by (by apply Forall_app).
    rewrite <- (app_nil_r (s ++ b)), (lstrip_blank_app _ [] Hall). done.
  - rewrite E. rewrite Hs at 1. rewrite E, <- app_assoc, (lstrip_blank_app _ _ Ha).
    cbn [app]. rewrite (lstrip_text _ _ Hc).
    exact (rstrip_blank_app (c :: t) b Hb).
Qed.

(** *** Lines *)

(** Induction along the way [splitlines] consumes its input. *)
Lemma splitlines_ind (P : str -> Prop) :
  P [] ->
  (forall rest, P rest -> P (CR :: LF :: rest)) ->
  (forall c rest,
     islinebreak c = true -> (c = CR -> head rest <> Some LF) ->
     P rest -> P (c :: rest)) ->
  (forall c rest, islinebreak c = false -> P rest -> P (c :: rest)) ->
  forall s, P s.
Proof.
  intros Hnil Hcrlf Hbreak Hchar s.
  remember (length s) as n eqn:Hn. revert s Hn.
  induction n as [n IH] using lt_wf_ind. intros s Hn.
  destruct s as [|c rest]; [done|]. simpl in Hn.
  destruct (islinebreak c) eqn:Hc.
  - destruct (N.eqb_spec c CR) as [->|Hcr].
    + destruct rest as [|c' rest'].
      * apply Hbreak; [done|done|done].
      * destruct (N.eqb_spec c' LF) as [->|Hlf].
        -- apply Hcrlf. apply (IH (length rest')); simpl in *; [lia|done].
        -- apply Hbreak; [done| |].
           ++ intros _ [=]. done.
           ++ apply (IH (length (c' :: rest'))); [lia|done].
    + apply Hbreak; [done|done|]. apply (IH (length rest)); [lia|done].
  - apply Hchar; [done|]. apply (IH (length rest)); [lia|done].
Qed.

Lemma splitlines_break c rest :
  islinebreak c = true -> (c = CR -> head rest <> Some LF) ->
  splitlines (c :: rest) = [] :: splitlines rest.
Proof.
  intros Hc Hcr. cbn [splitlines]. rewrite Hc.
  destruct rest as [|c' rest']; [done|].
  destruct (N.eqb_spec c CR) as [->|]; [|done].
  destruct (N.eqb_spec c' LF) as [->|]; [|done].
  by destruct (Hcr eq_refl).
Qed.

Lemma splitlines_crlf rest :
  splitlines (CR :: LF :: rest) = [] :: splitlines rest.
Proof. done. Qed.

Lemma splitlines_char c rest :
  islinebreak c = false ->
  splitlines (c :: rest)
  = match splitlines rest with
    | line :: lines => (c :: line) :: lines
    | [] => [[c]]
    end.
Proof. intros Hc. cbn [splitlines]. by rewrite Hc. Qed.

Lemma splitlines_nil s : splitlines s = [] -> s = [].
Proof.
  destruct s as [|c rest]; [done|]. cbn [splitlines].
  destruct (islinebreak c); [done|]. by destruct (splitlines rest).
Qed.

Lemma join_cons_char sep c line lines :
  join sep ((c :: line) :: lines) = c :: join sep (line :: lines).
Proof. by destruct lines. Qed.

Lemma join_nil_cons sep lines :
  lines <> [] -> join sep ([] :: lines) = sep ++ join sep lines.
Proof. by destruct lines. Qed.

Lemma elem_of_join x sep line lines :
  line ∈ lines -> x ∈ line -> x ∈ join sep lines.
Proof.
  intros Hl Hx. induction lines as [|l lines IH]; [by apply elem_of_nil in Hl|].
  apply elem_of_cons in Hl as [->|Hl].
  - destruct lines; simpl; [done|]. apply elem_of_app. by left.
  - specialize (IH Hl). destruct lines as [|l' lines]; [by apply elem_of_nil in Hl|].
    cbn [join]. rewrite !elem_of_app. by right; right.
Qed.

(** Every character that is not a line break is on one of the lines. *)
Lemma splitlines_keeps x s :
  x ∈ s -> islinebreak x = false -> exists line, line ∈ splitlines s /\ x ∈ line.
Proof.
  intros Hx Hnb. revert Hx. pattern s. apply splitlines_ind; clear s.
  - by intros ?%elem_of_nil.
  - intros rest IH Hx. rewrite splitlines_crlf.
    apply elem_of_cons in Hx as [->|Hx]; [done|].
    apply elem_of_cons in Hx as [->|Hx]; [done|].
    destruct (IH Hx) as (line & ? & ?). exists line. split; [by right|done].
  - intros c rest Hc Hcr IH Hx. rewrite splitlines_break by done.
    apply elem_of_cons in Hx as [->|Hx]; [congruence|].
    destruct (IH Hx) as (line & ? & ?). exists line. split; [by right|done].
  - intros c rest Hc IH Hx. rewrite splitlines_char by done.
    apply elem_of_cons in Hx as [->|Hx].
    + destruct (splitlines rest) as [|line lines].
      * exists [c]. split; by left.
      * exists (c :: line). split; by left.
    + destruct (IH Hx) as (line & Hl & ?).
      destruct (splitlines rest) as [|line' lines]; [by apply elem_of_nil in Hl|].
      apply elem_of_cons in Hl as [->|Hl].
      * exists (c :: line'). split; [by left | by right].
      * exists line. split; [by right | done].
Qed.

(** Where "\n" is the only line break, joining the lines with "\n" gives the
    script back, up to one final "\n". *)
Lemma join_splitlines_only_LF s :
  only_LF s ->
  exists ending, (ending = [] \/ ending = [LF])
                 /\ s = join [LF] (splitlines s) ++ ending.
Proof.
  pattern s. apply splitlines_ind; clear s.
  - intros _. exists []. by split; [left|].
  - intros rest _ H. apply Forall_cons in H as [H _]. by specialize (H eq_refl).
  - intros c rest Hc Hcr IH H. apply Forall_cons in H as [Hlf H].
    specialize (Hlf Hc) as ->. rewrite splitlines_break by done.
    destruct (IH H) as (ending & He & Hs).
    destruct (splitlines rest) as [|line lines] eqn:E.
    + apply splitlines_nil in E as ->. exists [LF]. by split; [right|].
    + exists ending. split; [done|]. rewrite join_nil_cons by done.
      cbn [app]. by rewrite Hs at 1.
  - intros c rest Hc IH H. apply Forall_cons in H as [_ H].
    destruct (IH H) as (ending & He & Hs). rewrite splitlines_char by done.
    destruct (splitlines rest) as [|line lines] eqn:E.
    + apply splitlines_nil in E as ->. exists []. by split; [left|].
    + exists ending. split; [done|]. rewrite join_cons_char. cbn [app].
      by rewrite Hs at 1.
Qed.

Lemma islinebreak_isspace c : islinebreak c = true -> isspace c = true.
Proof.
  unfold islinebreak, isspace.
  rewrite !orb_true_iff, !andb_true_iff, !N.leb_le, !N.eqb_eq. lia.
Qed.

Lemma has_text_join_lines s : has_text s -> has_text (join [LF] (splitlines s)).
Proof.
  intros (x & Hx & Hsp). exists x. split; [|done].
  assert (Hnb : islinebreak x = false).
  { destruct (islinebreak x) eqn:E; [|done].
    apply islinebreak_isspace in E. congruence. }
  destruct (splitlines_keeps x s Hx Hnb) as (line & Hl & Hxl).
  by apply (elem_of_join x [LF] line).
Qed.

Lemma has_text_truthy s : has_text s -> truthy s = true.
Proof. intros (x & Hx & _). destruct s; [by apply elem_of_nil in Hx|done]. Qed.

Lemma split_script_sql_lines s :
  Forall sql_line (splitlines s) -> has_text s ->
  _split_script s = [strip (join [LF] (splitlines s))].
Proof.
  intros Hsql Htext. unfold _split_script.
  rewrite split_script_commands_scan, (scan_lines_sql [] _ Hsql). cbn [app].
  cbn [List.filter]. by rewrite (has_text_truthy _ (has_text_join_lines _ Htext)).
Qed.

Lemma strip_join_splitlines s :
  only_LF s -> strip (join [LF] (splitlines s)) = strip s.
Proof.
  intros (ending & He & Hs)%join_splitlines_only_LF.
  rewrite Hs at 2. symmetry. apply strip_app_blank.
  destruct He as [->| ->]; repeat constructor.
Qed.

(** The splitter drops a command only if it is empty before it is trimmed:
    a script of one line of one space gives one command, the empty string. *)
Lemma split_script_blank_line : _split_script (lit " ") = [[]].
Proof. reflexivity. Qed.

(** C7, as the claim states it, fails: the script "select 1;\r\nselect 2;" has
    no line that starts with "." and is not blank, yet the one command the
    splitter returns is not the script trimmed: the "\r\n" between the two
    lines has become "\n". *)
Lemma split_script_sql_only_fails :
  Forall sql_line (splitlines (lit "select 1;" ++ [CR; LF] ++ lit "select 2;"))
  /\ _split_script (lit "select 1;" ++ [CR; LF] ++ lit "select 2;")
     = [lit "select 1;" ++ [LF] ++ lit "select 2;"]
  /\ _split_script (lit "select 1;" ++ [CR; LF] ++ lit "select 2;")
     <> [strip (lit "select 1;" ++ [CR; LF] ++ lit "select 2;")].
Proof.
  split; [|split].
  - vm_compute. repeat constructor.
  - by vm_compute.
  - by vm_compute.
Qed.

(** C7, amended: for every script with no line that starts with "." and with
    a character that is not whitespace, the splitter returns exactly one
    command, the newline-join of the lines of the script, trimmed; it is not
    empty, and it is the script trimmed where "\n" is the only line-break
    character of the script; the empty script gives the empty sequence; and in
    every result every command is trimmed and is the trimmed form of a command
    that was not empty before trimming. *)
Theorem split_script_sql_only :
  (forall script,
     Forall sql_line (splitlines script) -> has_text script ->
     _split_script script = [strip (join [LF] (splitlines script))]
     /\ strip (join [LF] (splitlines script)) <> []
     /\ (only_LF script -> _split_script script = [strip script]))
  /\ _split_script [] = []
  /\ (forall script command,
        command ∈ _split_script script ->
        strip command = command
        /\ exists raw, raw ∈ split_script_commands (splitlines script)
                       /\ raw <> [] /\ command = strip raw).
Proof.
  split; [|split].
  - intros script Hsql Htext. split; [by apply split_script_sql_lines|].
    split.
    + by apply strip_has_text, has_text_join_lines.
    + intros Hlf. rewrite split_script_sql_lines by done.
      by rewrite strip_join_splitlines.
  - reflexivity.
  - intros script command Hin. unfold _split_script in Hin.
    apply list_elem_of_In, in_map_iff in Hin as (raw & <- & Hraw).
    apply filter_In in Hraw as [Hraw Htruthy].
    split; [apply strip_idemp|].
    exists raw. split; [by apply list_elem_of_In|]. split; [|done].
    by destruct raw.
Qed.

Lemma split_script_sql_only_witness :
  _split_script (lit "  select 1," ++ [LF] ++ lit "  2;" ++ [LF])
  = [lit "select 1," ++ [LF] ++ lit "  2;"].
Proof.
  destruct split_script_sql_only as (H & _ & _).
  destruct (H (lit "  select 1," ++ [LF] ++ lit "  2;" ++ [LF])) as (_ & _ & Hlf).
  - vm_compute. repeat constructor.
  - exists 115. split; [|reflexivity]. vm_compute. do 2 right. left.
  - rewrite Hlf; [reflexivity|].
    vm_compute. repeat (constructor; [intros E; try reflexivity; discriminate E|]).
    constructor.
Defined.

(** ** Session bootstrap *)

Section ConnectFacts.
Context {flavour : PathFlavour} {Engine : Type}.
Variable execute : str -> Engine -> result unit * Engine.
Variable read_file : str -> result str.

Lemma run_statements_app (a b : list str) (count : nat) (conn : Engine) :
  run_statements Engine execute (a ++ b) count conn
  = match run_statements Engine execute a count conn with
    | (Return count', conn') => run_statements Engine execute b count' conn'
    | (Raise e, conn') => (Raise e, conn')
    end.
Proof.
  revert count conn. induction a as [|cmd a IH]; intros count conn; [done|].
  cbn [app run_statements]. unfold mbind.
  destruct (execute cmd conn) as [[[]|e] conn']; [apply IH|done].
Qed.

Lemma for_each_statements (pieces : list str) (count : nat) (conn : Engine) :
  for_each Engine pieces (init_statement Engine execute) count conn
  = run_statements Engine execute
      (List.filter (fun cmd => truthy (strip cmd)) pieces) count conn.
Proof.
  revert count conn. induction pieces as [|cmd pieces IH]; intros count conn;
    [done|].
  cbn [for_each List.filter]. unfold mbind at 1, init_statement at 1.
  destruct (truthy (strip cmd)).
  - cbn [run_statements]. unfold mbind, ret.
    destruct (execute cmd conn) as [[[]|e] conn']; [apply IH|done].
  - unfold ret. apply IH.
Qed.

Lemma for_each_commands (commands : list str) (count : nat) (conn : Engine) :
  for_each Engine commands (init_command Engine execute) count conn
  = run_statements Engine execute
      (flat_map (fun command =>
                   match _rewrite_init_command command with
                   | Return rewritten_command => statements_of rewritten_command
                   | Raise _ => []
                   end) commands) count conn.
Proof.
  revert count conn. induction commands as [|command commands IH];
    intros count conn; [done|].
  cbn [for_each flat_map]. rewrite run_statements_app.
  unfold mbind at 1, init_command at 1, mbind, lift.
  destruct (rewrite_init_command_total command) as [sql ->].
  rewrite for_each_statements. fold (statements_of sql).
  destruct (run_statements Engine execute (statements_of sql) count conn)
    as [[count'|e] conn']; [apply IH|done].
Qed.

Lemma init_try_run (init_script : str) (conn : Engine) :
  init_try Engine execute init_script conn
  = run_statements Engine execute (init_statements init_script) 0 conn.
Proof. apply for_each_commands. Qed.

Lemma run_statements_count stmts count conn count' conn' :
  run_statements Engine execute stmts count conn = (Return count', conn') ->
  count' = (count + length stmts)%nat.
Proof.
  revert count conn. induction stmts as [|cmd stmts IH]; intros count conn.
  - cbn. intros [= <- _]. lia.
  - cbn [run_statements length]. unfold mbind.
    destruct (execute cmd conn) as [[[]|e] conn1]; [|done].
    intros ->%IH. lia.
Qed.

Lemma init_statements_script (init_script : str) :
  init_statements init_script <> [] ->
  exists first, getitem init_script 0 = Return first.
Proof. destruct init_script as [|first rest]; [done|]. by exists first. Qed.

End ConnectFacts.

(** C4: the bootstrap submits to the engine the statements of the script in
    script order: for each command of the splitter, in order, the pieces
    between ";" of its rewriting whose trimmed form is not empty, in order,
    counting the accepted ones.  If the engine accepts the statements before
    one and refuses that one with a message, the bootstrap raises at once a
    [HarlequinConnectionError] whose message ends with the engine's message,
    under the fixed title, and the engine is left as the refused statement
    left it after the accepted ones: nothing is undone, nothing later is
    submitted.  If the engine accepts all of them the count is their number
    and the bootstrap returns its message. *)
Theorem connect_init_in_order
    (flavour : PathFlavour) (Engine : Type)
    (execute : str -> Engine -> result unit * Engine)
    (read_file : str -> result str)
    (path init_script : str) (conn : Engine) :
  read_file path = Return init_script ->
  init_try Engine execute init_script conn
  = run_statements Engine execute (init_statements init_script) 0 conn
  /\ (forall pre cmd post count conn1 conn2 msg,
        init_statements init_script = pre ++ cmd :: post ->
        run_statements Engine execute pre 0 conn = (Return count, conn1) ->
        execute cmd conn1 = (Raise (duckdb_Error msg), conn2) ->
        count = length pre
        /\ exists first,
             getitem init_script 0 = Return first
             /\ connect_init Engine execute read_file (Some path) false conn
                = (Raise (HarlequinConnectionError
                            (lit "Attempted to execute script at " ++ [first]
                             ++ [LF] ++ msg)
                            (lit "DuckDB could not execute your initialization script.")),
                   conn2))
  /\ (forall count conn',
        run_statements Engine execute (init_statements init_script) 0 conn
        = (Return count, conn') ->
        count = length (init_statements init_script)
        /\ connect_init Engine execute read_file (Some path) false conn
           = (Return (init_message count path), conn')).
Proof.
  intros Hread. split; [apply init_try_run|]. split.
  - intros pre cmd post count conn1 conn2 msg Hstmts Hpre Hcmd.
    split; [by apply run_statements_count in Hpre|].
    destruct (init_statements_script init_script) as [first Hfirst].
    { rewrite Hstmts. by destruct pre. }
    exists first. split; [done|].
    unfold connect_init, _read_init_script. rewrite Hread. cbn [negb].
    unfold mbind at 1, lift at 1.
    rewrite init_try_run, Hstmts, run_statements_app, Hpre.
    cbn [run_statements]. unfold mbind at 1. rewrite Hcmd.
    unfold mbind, lift, raise. by rewrite Hfirst.
  - intros count conn' Hrun.
    split; [by apply run_statements_count in Hrun|].
    unfold connect_init, _read_init_script. rewrite Hread. cbn [negb].
    unfold mbind at 1, lift at 1.
    rewrite init_try_run, Hrun. unfold init_message.
    by destruct (0 <? count)%nat.
Qed.

Lemma connect_init_in_order_witness :
  connect_init (list str) log_execute example_files (Some (lit "~/.duckdbrc"))
               false []
  = (Raise (HarlequinConnectionError
              (lit "Attempted to execute script at s" ++ [LF]
               ++ lit "Parser Error: syntax error at or near boom")
              (lit "DuckDB could not execute your initialization script.")),
     [lit "select 1"; lit "attach 'foo.db' as foo"; lit " use foo"]).
Proof.
  destruct (connect_init_in_order posix_flavour (list str) log_execute
              example_files (lit "~/.duckdbrc") example_script [] eq_refl)
    as (_ & Hfail & _).
  destruct (Hfail [lit "select 1"; lit "attach 'foo.db' as foo"; lit " use foo"]
                  (lit "boom") [[LF] ++ lit "select 2"] 3%nat
                  [lit "select 1"; lit "attach 'foo.db' as foo"; lit " use foo"]
                  [lit "select 1"; lit "attach 'foo.db' as foo"; lit " use foo"]
                  (lit "Parser Error: syntax error at or near boom"))
    as (_ & first & Hfirst & Hraise).
  - reflexivity.
  - reflexivity.
  - reflexivity.
  - injection Hfirst as <-. exact Hraise.
Defined.

(** ** What the bootstrap submits for a meta-command *)

Lemma before_attach (tail : str) :
  before 59 (lit "attach " ++ tail) = lit "attach " ++ before 59 tail.
Proof. done. Qed.

Lemma statements_of_attach (tail : str) :
  exists rest,
    statements_of (lit "attach " ++ tail)
    = (lit "attach " ++ before 59 tail) :: rest.
Proof.
  unfold statements_of.
  pose proof (split_head 59 (lit "attach " ++ tail)) as Hhead.
  destruct (split_cons 59 (lit "attach " ++ tail)) as (piece & pieces & E).
  assert (Hp : piece = lit "attach " ++ before 59 tail).
  { rewrite E in Hhead. injection Hhead as ->. done. }
  rewrite E, Hp.
  cbn [List.filter].
  assert (Ht : truthy (strip (lit "attach " ++ before 59 tail)) = true).
  { assert (Hne : strip (lit "attach " ++ before 59 tail) <> []).
    { apply strip_has_text. exists 97. split; [by left|done]. }
    by destruct (strip _). }
  rewrite Ht. eauto.
Qed.

Lemma Forall_List_filter {A} (P : A -> Prop) (f : A -> bool) (l : list A) :
  Forall P l -> Forall P (List.filter f l).
Proof.
  induction 1 as [|x l Hx _ IH]; cbn [List.filter]; [constructor|].
  destruct (f x); [by constructor|done].
Qed.

(** On POSIX paths, with no ";" in the option and in the path, the rewriting
    of ".open" is two statements and neither starts with ".". *)
Lemma posix_attach_use_statements (option db_path : str) :
  59 ∉ option -> 59 ∉ db_path ->
  Forall (fun stmt => startswith stmt (lit ".") = false)
         (statements_of (@attach_use posix_flavour option db_path)).
Proof.
  intros Hopt Hpath.
  assert (Hstr : 59 ∉ PosixPath.to_str db_path).
  { intros [?|[?|?]]%PosixPathFacts.to_str_chars; done. }
  assert (Hstem : 59 ∉ PosixPath.stem db_path).
  { by intros ?%PosixPathFacts.stem_chars. }
  unfold statements_of, attach_use. cbn [Path_str Path_stem posix_flavour].
  set (P := PosixPath.to_str db_path) in *.
  set (S := PosixPath.stem db_path) in *.
  replace (lit "attach '" ++ P ++ lit "'" ++ option ++ lit " as " ++ S
           ++ lit "; use " ++ S ++ lit ";")
    with ((lit "attach '" ++ P ++ lit "'" ++ option ++ lit " as " ++ S)
          ++ 59 :: ((lit " use " ++ S) ++ 59 :: []))
    by (by rewrite <- !app_assoc).
  rewrite split_app_sep, split_app_sep.
  - apply Forall_List_filter. by repeat constructor.
  - rewrite not_elem_of_app. split; [|done].
    apply (bool_decide_unpack _). by vm_compute.
  - rewrite !not_elem_of_app. repeat split; try done;
      apply (bool_decide_unpack _); by vm_compute.
Qed.

Lemma posix_open_rule_statements (args : list str) :
  Forall (fun arg => 59 ∉ arg) args ->
  Forall (fun stmt => startswith stmt (lit ".") = false)
         (statements_of (@open_rule posix_flavour args)).
Proof.
  intros Hargs. unfold open_rule.
  destruct args as [|a0 [|a1 [|a2 rest]]].
  - vm_compute. by repeat constructor.
  - apply Forall_cons in Hargs as [H0 _].
    apply posix_attach_use_statements; [apply not_elem_of_nil|done].
  - apply Forall_cons in Hargs as [H0 [H1 _]%Forall_cons].
    destruct (Py.eqb a0 (lit "--readonly")).
    + apply posix_attach_use_statements; [|done].
      apply (bool_decide_unpack _). by vm_compute.
    + apply posix_attach_use_statements; [apply not_elem_of_nil|done].
  - apply Forall_cons in Hargs as [H0 _].
    apply posix_attach_use_statements; [apply not_elem_of_nil|done].
Qed.

Lemma split_ws_args_chars (command : str) x :
  x ∉ command -> Forall (fun arg => x ∉ arg) (drop 1 (split_ws command)).
Proof.
  intros Hx. apply Forall_forall. intros arg Harg Hin.
  apply Hx, (split_ws_chars command arg); [|done].
  by apply (subseteq_drop 1 (split_ws command)).
Qed.

Lemma posix_meta_statements (command sql : str) :
  startswith command (lit ".") = true ->
  @_rewrite_init_command posix_flavour command = Return sql ->
  59 ∉ command ->
  Forall (fun stmt => startswith stmt (lit ".") = false) (statements_of sql).
Proof.
  intros Hdot Hrw Hsemi. unfold _rewrite_init_command in Hrw.
  rewrite Hdot in Hrw. cbn [negb] in Hrw.
  destruct (startswith command (lit ".open")).
  - rewrite rewrite_dot_open_rule in Hrw. injection Hrw as <-.
    by apply posix_open_rule_statements, split_ws_args_chars.
  - injection Hrw as <-. vm_compute. constructor.
Qed.

Lemma posix_meta_not_submitted (command sql : str) :
  startswith command (lit ".") = true ->
  @_rewrite_init_command posix_flavour command = Return sql ->
  command ∉ statements_of sql.
Proof.
  intros Hdot Hrw Hin. destruct (decide (59 ∈ command)) as [Hsemi|Hsemi].
  - unfold statements_of in Hin.
    apply list_elem_of_In, filter_In in Hin as [Hin%list_elem_of_In _].
    by apply split_piece_no_sep in Hin.
  - pose proof (posix_meta_statements command sql Hdot Hrw Hsemi) as Hall.
    rewrite Forall_forall in Hall. apply Hall in Hin. congruence.
Qed.

(** C9, amended: for every command that starts with ".", the rewriter returns
    a string that does not start with ".": the empty string, or a string that
    begins with "attach ".  The bootstrap loop, on such a command, submits to
    the engine the statements of that string and nothing else: none where the
    command does not start with ".open", and otherwise statements of which
    the first begins with "attach ".  With POSIX paths the command itself is
    never among the statements submitted for it, and where the command has no
    ";" none of them starts with ".". *)
Theorem rewrite_meta_command_never_dot
    (flavour : PathFlavour) (command : str) :
  startswith command (lit ".") = true ->
  exists sql,
    _rewrite_init_command command = Return sql
    /\ startswith sql (lit ".") = false
    /\ (sql = [] \/ startswith sql (lit "attach ") = true)
    /\ sql <> command
    /\ (forall (Engine : Type) (execute : str -> Engine -> result unit * Engine)
               (count : nat) (conn : Engine),
          init_command Engine execute count command conn
          = run_statements Engine execute (statements_of sql) count conn)
    /\ (startswith command (lit ".open") = false -> statements_of sql = [])
    /\ (startswith command (lit ".open") = true ->
        exists first rest,
          statements_of sql = first :: rest
          /\ startswith first (lit "attach ") = true)
    /\ (forall posix_sql,
          @_rewrite_init_command posix_flavour command = Return posix_sql ->
          (command ∉ statements_of posix_sql)
          /\ (59 ∉ command ->
              Forall (fun stmt => startswith stmt (lit ".") = false)
                     (statements_of posix_sql))).
Proof.
  intros Hdot.
  assert (Hsql : exists sql,
             _rewrite_init_command command = Return sql
             /\ (startswith command (lit ".open") = false -> sql = [])
             /\ (startswith command (lit ".open") = true ->
                 startswith sql (lit "attach ") = true)).
  { unfold _rewrite_init_command. rewrite Hdot. cbn [negb].
    destruct (startswith command (lit ".open")).
    - rewrite rewrite_dot_open_rule. eexists. split; [done|].
      split; [done|]. intros _. apply open_rule_attach.
    - exists []. by repeat split. }
  destruct Hsql as (sql & Hrw & Hother & Hopen). exists sql.
  assert (Hshape : sql = [] \/ startswith sql (lit "attach ") = true).
  { destruct (startswith command (lit ".open")); [right|left]; auto. }
  assert (Hnodot : startswith sql (lit ".") = false).
  { destruct Hshape as [->|[t ->]%startswith_inv]; done. }
  split; [done|]. split; [done|]. split; [done|].
  split; [intros ->; congruence|]. split; [|split; [|split]].
  - intros Engine execute count conn.
    unfold init_command, mbind, lift. rewrite Hrw.
    apply for_each_statements.
  - intros ->%Hother. done.
  - intros [t ->]%Hopen%startswith_inv.
    destruct (statements_of_attach t) as [rest ->].
    eexists _, rest. split; [done|]. apply startswith_app.
  - intros posix_sql Hposix. split.
    + by apply posix_meta_not_submitted.
    + by apply posix_meta_statements.
Qed.

Lemma rewrite_meta_command_never_dot_witness :
  exists sql,
    @_rewrite_init_command posix_flavour (lit ".open --readonly a.db") = Return sql
    /\ startswith sql (lit ".") = false.
Proof.
  destruct (rewrite_meta_command_never_dot posix_flavour
              (lit ".open --readonly a.db") eq_refl)
    as (sql & Hrw & Hnodot & _).
  exists sql. by split.
Defined.

(** C9, as the claim states it, fails: the command ".open a;.help;.db" starts
    with "." and reaches the rewriter as one command; its rewriting starts
    with "attach ", but it holds the ";" of the path and of the stem, and the
    bootstrap loop, which cuts the rewriting at every ";", submits the
    statement ".help" to the engine, three times. *)
Lemma rewrite_meta_command_never_dot_fails :
  startswith (lit ".open a;.help;.db") (lit ".") = true
  /\ _split_script (lit ".open a;.help;.db") = [lit ".open a;.help;.db"]
  /\ @_rewrite_init_command posix_flavour (lit ".open a;.help;.db")
     = Return (lit "attach 'a;.help;.db' as a;.help;; use a;.help;;")
  /\ statements_of (lit "attach 'a;.help;.db' as a;.help;; use a;.help;;")
     = [lit "attach 'a"; lit ".help"; lit ".db' as a"; lit ".help";
        lit " use a"; lit ".help"]
  /\ @init_command posix_flavour (list str) log_execute 0
       (lit ".open a;.help;.db") []
     = (Return 6%nat,
        [lit "attach 'a"; lit ".help"; lit ".db' as a"; lit ".help";
         lit " use a"; lit ".help"])
  /\ ~ Forall (fun stmt => startswith stmt (lit ".") = false)
         (@init_statements posix_flavour (lit ".open a;.help;.db")).
Proof.
  repeat split; try (by vm_compute).
  intros H. apply Forall_cons in H as [_ H]. apply Forall_cons in H as [H _].
  revert H. by vm_compute.
Qed.

(** ** CatalogBuilder *)

Lemma for_append_Return {A B} (xs : list A) (body : A -> result B)
    (acc items : list B) :
  for_append xs body acc = Return items ->
  exists ys, items = acc ++ ys /\ Forall2 (fun x y => body x = Return y) xs ys.
Proof.
  revert acc. induction xs as [|x xs IH]; intros acc; cbn [for_append].
  - intros [= <-]. exists []. split; [by rewrite app_nil_r | constructor].
  - destruct (body x) as [y|e] eqn:E; cbn [bind]; [|done].
    intros (ys & -> & Hys)%IH. exists (y :: ys).
    split; [by rewrite <- app_assoc | by constructor].
Qed.

Lemma for_append_Raise {A B} (xs : list A) (body : A -> result B)
    (acc : list B) (e : exn) :
  for_append xs body acc = Raise e -> exists x, x ∈ xs /\ body x = Raise e.
Proof.
  revert acc. induction xs as [|x xs IH]; intros acc; cbn [for_append]; [done|].
  destruct (body x) as [y|e'] eqn:E; cbn [bind].
  - intros (x' & Hin & Hx')%IH. exists x'. split; [by right|done].
  - intros [= ->]. exists x. split; [by left|done].
Qed.

Lemma Forall2_elem_of_l {A B} (P : A -> B -> Prop) xs ys x :
  Forall2 P xs ys -> x ∈ xs -> exists y, P x y.
Proof.
  induction 1 as [|x' y' xs ys Hxy _ IH]; [by intros ?%elem_of_nil|].
  intros [->|Hin]%elem_of_cons; [by exists y'|by apply IH].
Qed.

Section GetCatalogFacts.
Variable self : MetadataSource.

Lemma column_item_Return table_identifier col :
  exists item, column_item table_identifier col = Return item
               /\ column_ok col item.
Proof.
  unfold column_item. rewrite short_column_type_eq. cbn [bind].
  eexists. split; [done|]. unfold column_ok. cbn [label type_label children].
  by rewrite short_column_type_eq.
Qed.

Lemma column_items_Return table_identifier columns :
  exists column_items,
    for_append columns (column_item table_identifier) [] = Return column_items
    /\ Forall2 column_ok columns column_items.
Proof.
  destruct (for_append columns (column_item table_identifier) [])
    as [column_items|e] eqn:E.
  - exists column_items. split; [done|].
    apply for_append_Return in E as (ys & -> & Hys). cbn [app].
    eapply Forall2_impl; [exact Hys|]. intros col item Hitem.
    destruct (column_item_Return table_identifier col) as (item' & E' & Hok).
    congruence.
  - apply for_append_Raise in E as (col & _ & E).
    destruct (column_item_Return table_identifier col) as (item' & E' & _).
    congruence.
Qed.

Lemma table_item_Return database schema schema_identifier row item :
  table_item self database schema schema_identifier row = Return item ->
  table_ok self database schema row item.
Proof.
  unfold table_item. destruct row as [table kind].
  destruct (_get_columns self database schema table) as [columns|e] eqn:E;
    cbn [bind]; [|done].
  destruct (column_items_Return
              (schema_identifier ++ lit "." ++ quoted table) columns)
    as (column_items & -> & Hok).
  cbn [bind]. intros [= <-]. unfold table_ok. cbn [label type_label children fst snd].
  repeat split. exists columns. by rewrite E.
Qed.

Lemma table_item_Raise database schema schema_identifier row e :
  table_item self database schema schema_identifier row = Raise e ->
  _get_columns self database schema (fst row) = Raise e.
Proof.
  unfold table_item. destruct row as [table kind].
  destruct (_get_columns self database schema table) as [columns|e'] eqn:E;
    cbn [bind fst]; [|congruence].
  destruct (column_items_Return
              (schema_identifier ++ lit "." ++ quoted table) columns)
    as (column_items & -> & Hok).
  done.
Qed.

Lemma schema_item_Return database database_identifier schema item :
  schema_item self database database_identifier schema = Return item ->
  schema_ok self database schema item.
Proof.
  unfold schema_item.
  destruct (_get_tables self database schema) as [tables|e] eqn:E;
    cbn [bind]; [|done].
  destruct (for_append tables _ []) as [table_items|e] eqn:Ef; cbn [bind]; [|done].
  intros [= <-]. unfold schema_ok. cbn [label type_label children].
  repeat split. exists tables. split; [done|].
  apply for_append_Return in Ef as (ys & -> & Hys). cbn [app].
  eapply Forall2_impl; [exact Hys|]. intros row it. apply table_item_Return.
Qed.

Lemma schema_item_Raise database database_identifier schema e :
  schema_item self database database_identifier schema = Raise e ->
  _get_tables self database schema = Raise e
  \/ columns_query_fails self database schema e.
Proof.
  unfold schema_item.
  destruct (_get_tables self database schema) as [tables|e'] eqn:E;
    cbn [bind]; [|left; congruence].
  destruct (for_append tables _ []) as [table_items|e'] eqn:Ef; cbn [bind]; [done|].
  intros [= ->]. right.
  apply for_append_Raise in Ef as (row & Hin & Hrow%table_item_Raise).
  by exists tables, row.
Qed.

Lemma database_item_Return database item :
  database_item self database = Return item ->
  database_ok self database item.
Proof.
  unfold database_item.
  destruct (_get_schemas self database) as [schemas|e] eqn:E;
    cbn [bind]; [|done].
  destruct (for_append schemas _ []) as [schema_items|e] eqn:Ef; cbn [bind]; [|done].
  intros [= <-]. unfold database_ok. cbn [label type_label children].
  repeat split. exists schemas. split; [done|].
  apply for_append_Return in Ef as (ys & -> & Hys). cbn [app].
  eapply Forall2_impl; [exact Hys|]. intros schema it. apply schema_item_Return.
Qed.

Lemma database_item_Raise database e :
  database_item self database = Raise e ->
  _get_schemas self database = Raise e
  \/ tables_query_fails self database e.
Proof.
  unfold database_item.
  destruct (_get_schemas self database) as [schemas|e'] eqn:E;
    cbn [bind]; [|left; congruence].
  destruct (for_append schemas _ []) as [schema_items|e'] eqn:Ef; cbn [bind]; [done|].
  intros [= ->]. right.
  apply for_append_Raise in Ef as (schema & Hin & Hs%schema_item_Raise).
  by exists schemas, schema.
Qed.

Lemma get_catalog_Return catalog :
  get_catalog self = Return catalog -> catalog_complete self catalog.
Proof.
  unfold get_catalog.
  destruct (_get_databases self) as [databases|e] eqn:E; cbn [bind]; [|done].
  destruct (for_append databases _ []) as [catalog_items|e] eqn:Ef;
    cbn [bind]; [|done].
  intros [= <-]. exists databases. split; [done|]. cbn [items].
  apply for_append_Return in Ef as (ys & -> & Hys). cbn [app].
  eapply Forall2_impl; [exact Hys|]. intros database it.
  apply database_item_Return.
Qed.

Lemma get_catalog_Raise e :
  get_catalog self = Raise e -> metadata_query_fails self e.
Proof.
  unfold get_catalog, metadata_query_fails.
  destruct (_get_databases self) as [databases|e'] eqn:E;
    cbn [bind]; [|left; congruence].
  destruct (for_append databases _ []) as [catalog_items|e'] eqn:Ef;
    cbn [bind]; [done|].
  intros [= ->]. right.
  apply for_append_Raise in Ef as (database & Hin & Hd%database_item_Raise).
  by exists databases, database.
Qed.

(** A complete catalog leaves no query that failed. *)
Lemma catalog_complete_no_failure catalog e :
  catalog_complete self catalog -> ~ metadata_query_fails self e.
Proof.
  intros (databases & Hdbs & Hok) Hfail.
  destruct Hfail as [Hfail|(databases' & database & Hdbs' & Hin & Hfail)];
    [congruence|].
  assert (databases' = databases) as -> by congruence.
  destruct (Forall2_elem_of_l _ _ _ _ Hok Hin)
    as (db_item & _ & _ & schemas & Hschemas & Hsok).
  destruct Hfail as [Hfail|(schemas' & schema & Hs' & Hsin & Hfail)];
    [congruence|].
  assert (schemas' = schemas) as -> by congruence.
  destruct (Forall2_elem_of_l _ _ _ _ Hsok Hsin)
    as (sch_item & _ & _ & tables & Htables & Htok).
  destruct Hfail as [Hfail|(tables' & row & Ht' & Htin & Hfail)];
    [congruence|].
  assert (tables' = tables) as -> by congruence.
  destruct (Forall2_elem_of_l _ _ _ _ Htok Htin)
    as (tbl_item & _ & _ & columns & Hcolumns & _).
  congruence.
Qed.

End GetCatalogFacts.

(** C5, as the claim states it, fails: when the engine refuses the columns
    query with its own error, the build raises that very [duckdb.Error]; it is
    not a [HarlequinConnectionError] and carries no title. *)
Lemma get_catalog_error_not_wrapped :
  metadata_query_fails failing_source
    (duckdb_Error (lit "IO Error: database file is gone"))
  /\ get_catalog failing_source
     = Raise (duckdb_Error (lit "IO Error: database file is gone"))
  /\ forall msg title,
       get_catalog failing_source <> Raise (HarlequinConnectionError msg title).
Proof.
  split; [|split; [by vm_compute|]].
  - right. exists [lit "memory"], (lit "memory").
    split; [done|]. split; [by left|]. right.
    exists [lit "main"], (lit "main").
    split; [done|]. split; [by left|]. right.
    exists [(lit "t1", lit "BASE TABLE")], (lit "t1", lit "BASE TABLE").
    split; [done|]. split; [by left|done].
  - intros msg title H. vm_compute in H. discriminate H.
Qed.

(** C5, amended: if one of the four metadata queries fails during a catalog
    build, the build raises and returns no catalog; the exception it raises is
    the one a metadata query raised, unchanged; and a catalog that is returned
    is complete: every query succeeded and every row of every query has its
    node, in the order of the rows. *)
Theorem get_catalog_all_or_error (self : MetadataSource) :
  (forall e, metadata_query_fails self e ->
     exists e', get_catalog self = Raise e' /\ metadata_query_fails self e')
  /\ (forall e, get_catalog self = Raise e -> metadata_query_fails self e)
  /\ (forall catalog, get_catalog self = Return catalog ->
        catalog_complete self catalog
        /\ forall e, ~ metadata_query_fails self e).
Proof.
  split; [|split].
  - intros e Hfail. destruct (get_catalog self) as [catalog|e'] eqn:E.
    + apply get_catalog_Return in E.
      by destruct (catalog_complete_no_failure self catalog e E).
    + exists e'. split; [done|]. by apply get_catalog_Raise.
  - apply get_catalog_Raise.
  - intros catalog E%get_catalog_Return. split; [done|].
    intros e. by apply (catalog_complete_no_failure self catalog).
Qed.

Lemma get_catalog_all_or_error_witness :
  exists e, get_catalog failing_source = Raise e
            /\ metadata_query_fails failing_source e.
Proof.
  destruct (get_catalog_all_or_error failing_source) as (Hfail & _ & _).
  apply (Hfail (duckdb_Error (lit "IO Error: database file is gone"))).
  right. exists [lit "memory"], (lit "memory").
  split; [reflexivity|]. split; [by left|]. right.
  exists [lit "main"], (lit "main").
  split; [reflexivity|]. split; [by left|]. right.
  exists [(lit "t1", lit "BASE TABLE")], (lit "t1", lit "BASE TABLE").
  split; [reflexivity|]. split; [by left|reflexivity].
Defined.

Lemma short_column_type_INTEGER :
  _short_column_type (lit "INTEGER") = Return (lit "#").
Proof. by vm_compute. Qed.

Lemma short_column_type_VARCHAR_list :
  _short_column_type (lit "VARCHAR[]") = Return (lit "[s]").
Proof. by vm_compute. Qed.

Lemma short_relation_type_BASE_TABLE :
  _short_relation_type (lit "BASE TABLE") = lit "t".
Proof. by vm_compute. Qed.

(** C6: a metadata source that answers one database, one schema of it, one
    table of kind BASE TABLE in it, and two columns of it of the native types
    INTEGER and VARCHAR[], gives a catalog of one database node ("db") with
    one schema node ("sch") with one table node ("t") with exactly two column
    leaves, tagged "#" and "[s]", in the order of the rows of the columns
    query: five nodes on four levels. *)
Theorem get_catalog_one_table
    (self : MetadataSource) (database schema table column1 column2 : str) :
  _get_databases self = Return [database] ->
  _get_schemas self database = Return [schema] ->
  _get_tables self database schema = Return [(table, lit "BASE TABLE")] ->
  _get_columns self database schema table
  = Return [(column1, lit "INTEGER"); (column2, lit "VARCHAR[]")] ->
  let database_id := quoted database in
  let schema_id := database_id ++ lit "." ++ quoted schema in
  let table_id := schema_id ++ lit "." ++ quoted table in
  exists catalog,
    get_catalog self = Return catalog
    /\ items catalog =
       [mkCatalogItem database_id database_id database (lit "db")
          [mkCatalogItem schema_id schema_id schema (lit "sch")
             [mkCatalogItem table_id table_id table (lit "t")
                [mkCatalogItem (table_id ++ lit "." ++ quoted column1)
                               (quoted column1) column1 (lit "#") [];
                 mkCatalogItem (table_id ++ lit "." ++ quoted column2)
                               (quoted column2) column2 (lit "[s]") []]]]]
    /\ catalog_depth catalog = 4%nat
    /\ foldr (fun item n => (item_size item + n)%nat) 0%nat (items catalog) = 5%nat
    /\ catalog_complete self catalog.
Proof.
  intros Hdbs Hschemas Htables Hcolumns database_id schema_id table_id.
  assert (E : get_catalog self = Return {| items :=
       [mkCatalogItem database_id database_id database (lit "db")
          [mkCatalogItem schema_id schema_id schema (lit "sch")
             [mkCatalogItem table_id table_id table (lit "t")
                [mkCatalogItem (table_id ++ lit "." ++ quoted column1)
                               (quoted column1) column1 (lit "#") [];
                 mkCatalogItem (table_id ++ lit "." ++ quoted column2)
                               (quoted column2) column2 (lit "[s]") []]]]] |}).
  { unfold get_catalog. rewrite Hdbs. cbn [bind for_append].
    unfold database_item. rewrite Hschemas. cbn [bind for_append].
    unfold schema_item. rewrite Htables. cbn [bind for_append].
    unfold table_item. rewrite Hcolumns. cbn [bind for_append].
    unfold column_item. cbn [fst snd].
    rewrite short_column_type_INTEGER, short_column_type_VARCHAR_list.
    cbn [bind for_append app]. by rewrite short_relation_type_BASE_TABLE. }
  eexists. split; [exact E|]. split; [done|]. split; [done|]. split; [done|].
  by apply get_catalog_Return.
Qed.

Lemma get_catalog_one_table_witness :
  exists catalog,
    get_catalog example_source = Return catalog
    /\ catalog_depth catalog = 4%nat
    /\ List.map type_label
         (flat_map children (flat_map children (flat_map children (items catalog))))
       = [lit "#"; lit "[s]"].
Proof.
  destruct (get_catalog_one_table example_source (lit "memory") (lit "main")
              (lit "t1") (lit "id") (lit "tags")
              eq_refl eq_refl eq_refl eq_refl)
    as (catalog & Hcat & Hitems & Hdepth & _).
  exists catalog. split; [exact Hcat|]. split; [exact Hdepth|].
  rewrite Hitems. reflexivity.
Defined.

(** * More of the adapter *)

(** ** TypeNormalizer: what the tag depends on *)

Lemma strip_type_params_id (base : str) :
  40 ∉ base -> 91 ∉ base -> strip_type_params base = base.
Proof.
  induction base as [|c base IH]; [done|].
  intros [H40 Hp]%not_elem_of_cons [H91 Hb]%not_elem_of_cons.
  cbn [strip_type_params].
  destruct (N.eqb_spec c 40); [done|]. destruct (N.eqb_spec c 91); [done|].
  cbn [orb]. by rewrite IH.
Qed.

Lemma strip_type_params_app (base suffix : str) :
  40 ∉ base -> 91 ∉ base ->
  suffix = [] \/ startswith suffix (lit "(") = true
  \/ startswith suffix (lit "[") = true ->
  strip_type_params (base ++ suffix) = base.
Proof.
  intros H40 H91 Hsuffix. induction base as [|c base IH].
  - cbn [app]. destruct Hsuffix as [->|[[t ->]%startswith_inv|[t ->]%startswith_inv]];
      done.
  - apply not_elem_of_cons in H40 as [Hc40 H40].
    apply not_elem_of_cons in H91 as [Hc91 H91].
    cbn [app strip_type_params].
    destruct (N.eqb_spec c 40); [done|]. destruct (N.eqb_spec c 91); [done|].
    cbn [orb]. by rewrite IH.
Qed.

Lemma endswith_inv (s suffix : str) :
  endswith s suffix = true -> exists t, s = t ++ suffix.
Proof.
  unfold endswith. intros [t Ht]%startswith_inv. exists (rev t).
  by rewrite <- (rev_involutive s), Ht, rev_app_distr, rev_involutive.
Qed.

Lemma endswith_app (s suffix : str) : endswith (s ++ suffix) suffix = true.
Proof. unfold endswith. rewrite rev_app_distr. apply startswith_app. Qed.

(** X1: the tag of a column type depends only on its base name and on
    whether the type ends with "[]": for a base name without "(" and "[",
    followed by nothing or by anything that starts with "(" or "[" (type
    parameters, array brackets), the result is the tag of the base name,
    wrapped in brackets exactly when the whole type ends with "[]". *)
Theorem short_column_type_suffix (base suffix : str) :
  40 ∉ base -> 91 ∉ base ->
  suffix = [] \/ startswith suffix (lit "(") = true
  \/ startswith suffix (lit "[") = true ->
  exists tag,
    _short_column_type base = Return tag
    /\ _short_column_type (base ++ suffix)
       = Return (if endswith (base ++ suffix) (lit "[]")
                 then lit "[" ++ tag ++ lit "]" else tag).
Proof.
  intros H40 H91 Hsuffix.
  exists (dict_get COLUMN_TYPE_MAPPING base UNKNOWN_TYPE). split.
  - rewrite short_column_type_eq. cbv zeta.
    rewrite (strip_type_params_id base H40 H91).
    destruct (endswith base (lit "[]")) eqn:E; [|done].
    apply endswith_inv in E as [t ->]. destruct H91.
    rewrite elem_of_app. right. by left.
  - rewrite short_column_type_eq. cbv zeta.
    by rewrite (strip_type_params_app base suffix H40 H91 Hsuffix).
Qed.

Lemma short_column_type_suffix_witness :
  _short_column_type (lit "DECIMAL" ++ lit "(18,3)[]") = Return (lit "[#.#]").
Proof.
  destruct (short_column_type_suffix (lit "DECIMAL") (lit "(18,3)[]"))
    as (tag & Htag & Hsuffix).
  - apply (bool_decide_unpack _). by vm_compute.
  - apply (bool_decide_unpack _). by vm_compute.
  - right. left. reflexivity.
  - rewrite Hsuffix.
    assert (tag = lit "#.#") as ->.
    { assert (E : _short_column_type (lit "DECIMAL") = Return (lit "#.#"))
        by (by vm_compute).
      congruence. }
    reflexivity.
Defined.

(** X2: an array of arrays is tagged like an array: appending "[]" to a type
    that already ends with "[]" does not change its tag, and appending it to
    any other type wraps the tag of that type in brackets. *)
Theorem short_column_type_array (native_type : str) :
  exists tag,
    _short_column_type native_type = Return tag
    /\ _short_column_type (native_type ++ lit "[]")
       = Return (if endswith native_type (lit "[]")
                 then tag else lit "[" ++ tag ++ lit "]").
Proof.
  assert (Hbase : strip_type_params (native_type ++ lit "[]")
                  = strip_type_params native_type).
  { induction native_type as [|c t IH]; [done|]. cbn [app strip_type_params].
    destruct ((c =? 40) || (c =? 91)); [done|]. by rewrite IH. }
  eexists. split; [apply short_column_type_eq|].
  rewrite short_column_type_eq. cbv zeta.
  rewrite Hbase, endswith_app.
  by destruct (endswith native_type (lit "[]")).
Qed.

(** X3: the tag of a relation kind is "t", "tmp" or "v" for the three kinds
    of the table, and the unknown marker for every other kind, and for no
    kind of the table. *)
Theorem short_relation_type_unknown (kind : str) :
  (_short_relation_type kind = UNKNOWN_TYPE
   <-> kind ∉ [lit "BASE TABLE"; lit "LOCAL TEMPORARY"; lit "VIEW"])
  /\ _short_relation_type kind ∈ [lit "t"; lit "tmp"; lit "v"; UNKNOWN_TYPE].
Proof.
  unfold _short_relation_type, dict_get.
  destruct (RELATION_TYPE_MAPPING !! kind) as [v|] eqn:E.
  - apply elem_of_list_to_map in E; [|apply (bool_decide_unpack _); by vm_compute].
    rewrite !elem_of_cons, elem_of_nil in E.
    destruct E as [[= -> ->]|[[= -> ->]|[[= -> ->]|[]]]].
    + split; [|by left]. split; [done|]. intros H. destruct H. by left.
    + split; [|by right; left]. split; [done|]. intros H. destruct H.
      by right; left.
    + split; [|by do 2 right; left]. split; [done|]. intros H. destruct H.
      by do 2 right; left.
  - split; [|by do 3 right; left]. split; [|done]. intros _.
    apply not_elem_of_list_to_map in E. exact E.
Qed.

(** ** ScriptSplitter: the meta-command lines *)

Lemma dot_line_truthy (line : str) :
  startswith line (lit ".") = true -> truthy line = true.
Proof. by intros [t ->]%startswith_inv. Qed.

Lemma scan_lines_dot_sublist (pending lines : list str) :
  sublist (List.map strip (dot_lines lines))
          (List.map strip (List.filter truthy (scan_lines pending lines))).
Proof.
  revert pending. induction lines as [|line lines IH]; intros pending.
  - apply sublist_nil_l.
  - cbn [scan_lines dot_lines List.filter].
    destruct (startswith line (lit ".")) eqn:Hdot.
    + cbn [List.filter]. rewrite (dot_line_truthy line Hdot).
      destruct (truthy (join [LF] pending)); cbn [List.map].
      * apply sublist_cons, sublist_skip, IH.
      * apply sublist_skip, IH.
    + apply IH.
Qed.

(** X4: every line of the script that starts with "." is a command of the
    result, trimmed, and these commands come in the order of the lines. *)
Theorem split_script_keeps_dot_lines (script : str) :
  sublist (List.map strip (dot_lines (splitlines script)))
          (_split_script script).
Proof.
  unfold _split_script. rewrite split_script_commands_scan.
  apply scan_lines_dot_sublist.
Qed.

Lemma rstrip_prefix (s : str) : exists b, s = rstrip s ++ b.
Proof.
  unfold rstrip. destruct (lstrip_split (rev s)) as (a & _ & Hs & _).
  exists (rev a). by rewrite <- rev_app_distr, <- Hs, rev_involutive.
Qed.

Lemma strip_dot_line (line : str) :
  startswith line (lit ".") = true ->
  startswith (strip line) (lit ".") = true
  /\ forall prefix, startswith (strip line) prefix = true ->
                    startswith line prefix = true.
Proof.
  intros [t ->]%startswith_inv. unfold strip. cbn [app lit].
  change (lit "." ++ t) with (46 :: t).
  rewrite (lstrip_text 46 t eq_refl), (rstrip_text 46 t eq_refl).
  split; [done|]. intros prefix [x Hx]%startswith_inv.
  destruct (rstrip_prefix t) as [b Hb].
  rewrite Hb. change (46 :: rstrip t ++ b) with ((46 :: rstrip t) ++ b).
  rewrite Hx, <- app_assoc. apply startswith_app.
Qed.

Lemma scan_lines_all_dot (lines : list str) :
  Forall (fun line => startswith line (lit ".") = true) lines ->
  List.filter truthy (scan_lines [] lines) = lines.
Proof.
  induction 1 as [|line lines Hdot _ IH]; [done|].
  cbn [scan_lines]. rewrite Hdot. cbn [List.filter join truthy].
  by rewrite (dot_line_truthy line Hdot), IH.
Qed.

Section InitFacts.
Context {flavour : PathFlavour}.

Lemma rewrite_unsupported (line : str) :
  unsupported_line line -> _rewrite_init_command (strip line) = Return [].
Proof.
  intros [Hdot Hopen]. destruct (strip_dot_line line Hdot) as [Hsdot Hprefix].
  unfold _rewrite_init_command. rewrite Hsdot. cbn [negb].
  destruct (startswith (strip line) (lit ".open")) eqn:E; [|done].
  apply Hprefix in E. congruence.
Qed.

Lemma init_statements_unsupported (lines : list str) :
  Forall unsupported_line lines ->
  flat_map (fun command =>
              match _rewrite_init_command command with
              | Return rewritten_command => statements_of rewritten_command
              | Raise _ => []
              end) (List.map strip lines) = [].
Proof.
  induction 1 as [|line lines Hline _ IH]; [done|].
  cbn [List.map flat_map]. by rewrite (rewrite_unsupported line Hline), IH.
Qed.

End InitFacts.

(** X5: a script in which every line is a meta-command other than ".open..."
    submits nothing to the engine: the bootstrap executes no statement,
    returns the empty message and leaves the engine as it was. *)
Theorem connect_init_unsupported_only
    (flavour : PathFlavour) (Engine : Type)
    (execute : str -> Engine -> result unit * Engine)
    (read_file : str -> result str)
    (path init_script : str) (conn : Engine) :
  read_file path = Return init_script ->
  Forall unsupported_line (splitlines init_script) ->
  init_statements init_script = []
  /\ connect_init Engine execute read_file (Some path) false conn
     = (Return [], conn).
Proof.
  intros Hread Hlines.
  assert (Hnone : init_statements init_script = []).
  { unfold init_statements, _split_script.
    rewrite split_script_commands_scan, scan_lines_all_dot.
    - by apply init_statements_unsupported.
    - eapply Forall_impl; [exact Hlines|]. by intros line [? _]. }
  split; [done|].
  unfold connect_init, _read_init_script. rewrite Hread. cbn [negb].
  unfold mbind at 1, lift at 1.
  by rewrite init_try_run, Hnone.
Qed.

Lemma connect_init_unsupported_only_witness :
  connect_init (list str) log_execute
    (fun _ => Return (lit ".mode csv" ++ [LF] ++ lit ".timer on " ++ [LF]))
    (Some (lit "rc")) false []
  = (Return [], []).
Proof.
  destruct (connect_init_unsupported_only posix_flavour (list str) log_execute
              (fun _ => Return (lit ".mode csv" ++ [LF] ++ lit ".timer on " ++ [LF]))
              (lit "rc") (lit ".mode csv" ++ [LF] ++ lit ".timer on " ++ [LF]) [])
    as [_ H].
  - reflexivity.
  - vm_compute. repeat constructor.
  - exact H.
Defined.

(** ** Session bootstrap: scripts with nothing to run, scripts of SQL only *)

Lemma splitlines_chars (s line : str) x :
  line ∈ splitlines s -> x ∈ line -> x ∈ s.
Proof.
  revert line. pattern s. apply splitlines_ind; clear s.
  - by intros line ?%elem_of_nil.
  - intros rest IH line. rewrite splitlines_crlf.
    intros [->|Hin]%elem_of_cons; [by intros ?%elem_of_nil|].
    intros Hx. do 2 right. by apply (IH line).
  - intros c rest Hc Hcr IH line. rewrite splitlines_break by done.
    intros [->|Hin]%elem_of_cons; [by intros ?%elem_of_nil|].
    intros Hx. right. by apply (IH line).
  - intros c rest Hc IH line. rewrite splitlines_char by done.
    destruct (splitlines rest) as [|l ls].
    + intros ->%list_elem_of_singleton ->%list_elem_of_singleton. by left.
    + intros [->|Hin]%elem_of_cons.
      * intros [->|Hx]%elem_of_cons; [by left|]. right.
        apply (IH l); [by left|done].
      * intros Hx. right. apply (IH line); [by right|done].
Qed.

Lemma strip_blank (s : str) : blank s -> strip s = [].
Proof.
  intros Hs. unfold strip.
  by rewrite <- (app_nil_r s), (lstrip_blank_app s [] Hs).
Qed.

Lemma blank_lines (s : str) :
  blank s ->
  Forall sql_line (splitlines s) /\ blank (join [LF] (splitlines s)).
Proof.
  intros Hs. unfold blank in *. rewrite Forall_forall in Hs. split.
  - apply Forall_forall. intros line Hline. unfold sql_line.
    destruct (startswith line (lit ".")) eqn:E; [|done].
    apply startswith_inv in E as [t ->].
    assert (H46 : isspace 46 = true).
    { apply Hs, (splitlines_chars s (lit "." ++ t)); [done|by left]. }
    done.
  - apply Forall_forall. intros x [Hx|(line & Hline & Hx)]%join_chars.
    + by apply list_elem_of_singleton in Hx as ->.
    + apply Hs. by apply (splitlines_chars s line).
Qed.

Lemma split_script_blank (s : str) :
  blank s -> _split_script s = [] \/ _split_script s = [[]].
Proof.
  intros [Hsql Hjoin]%blank_lines. unfold _split_script.
  rewrite split_script_commands_scan, (scan_lines_sql [] _ Hsql). cbn [app].
  cbn [List.filter]. destruct (truthy (join [LF] (splitlines s))); [|by left].
  right. cbn [List.map]. by rewrite (strip_blank _ Hjoin).
Qed.

(** X6: when initialization is switched off, or opening or reading the init
    file raises [OSError], or the script holds only whitespace, the bootstrap
    submits nothing to the engine, leaves it as it was and returns the empty
    message.  Only [OSError] is taken for a missing script: when reading the
    file raises anything else, the bootstrap raises that exception, again
    with nothing submitted. *)
Theorem connect_init_nothing_to_run
    (flavour : PathFlavour) (Engine : Type)
    (execute : str -> Engine -> result unit * Engine)
    (read_file : str -> result str)
    (path : str) (no_init : bool) (conn : Engine) :
  (no_init = true \/ read_file path = Raise OSError
   \/ (exists init_script,
         read_file path = Return init_script /\ blank init_script) ->
   connect_init Engine execute read_file (Some path) no_init conn
   = (Return [], conn))
  /\ (forall e,
        no_init = false -> read_file path = Raise e -> e <> OSError ->
        connect_init Engine execute read_file (Some path) no_init conn
        = (Raise e, conn)).
Proof.
  split.
  - intros H. unfold connect_init.
    destruct no_init; [done|]. cbn [negb].
    destruct H as [H|H]; [done|].
    assert (Hnone : exists init_script,
               _read_init_script read_file path = Return init_script
               /\ init_statements init_script = []).
    { unfold _read_init_script.
      destruct H as [->|(init_script & -> & Hblank)]; [by exists []|].
      exists init_script. split; [done|]. unfold init_statements.
      by destruct (split_script_blank init_script Hblank) as [->| ->]. }
    destruct Hnone as (init_script & -> & Hnone).
    unfold mbind, lift. by rewrite init_try_run, Hnone.
  - intros e -> Hread He. unfold connect_init, _read_init_script.
    rewrite Hread. cbn [negb]. unfold mbind, lift. by destruct e.
Qed.

Lemma connect_init_nothing_to_run_witness :
  connect_init (list str) log_execute
    (fun _ => Return (lit "  " ++ [LF; 9] ++ [CR; LF]))
    (Some (lit "rc")) false [lit "earlier"]
  = (Return [], [lit "earlier"])
  /\ connect_init (list str) log_execute
       (fun _ => Raise (PyException (lit "UnicodeDecodeError")))
       (Some (lit "rc")) false [lit "earlier"]
     = (Raise (PyException (lit "UnicodeDecodeError")), [lit "earlier"]).
Proof.
  split.
  - apply (connect_init_nothing_to_run posix_flavour).
    right. right. exists (lit "  " ++ [LF; 9] ++ [CR; LF]).
    split; [reflexivity|]. vm_compute. repeat constructor.
  - apply (connect_init_nothing_to_run posix_flavour); [reflexivity..|discriminate].
Defined.

(** X7: for a script of SQL only (no line starts with ".", some character is
    not whitespace, and the script trimmed does not start with "."), the
    bootstrap submits the pieces between ";" of the newline-join of the lines
    of the script, trimmed, whose trimmed form is not empty; where "\n" is the
    only line break of the script these are the pieces of the script
    trimmed. *)
Theorem init_statements_sql_only (flavour : PathFlavour) (init_script : str) :
  Forall sql_line (splitlines init_script) ->
  has_text init_script ->
  startswith (strip (join [LF] (splitlines init_script))) (lit ".") = false ->
  init_statements init_script
  = statements_of (strip (join [LF] (splitlines init_script)))
  /\ (only_LF init_script ->
      init_statements init_script = statements_of (strip init_script)).
Proof.
  intros Hsql Htext Hnodot.
  assert (E : init_statements init_script
              = statements_of (strip (join [LF] (splitlines init_script)))).
  { unfold init_statements. rewrite (split_script_sql_lines _ Hsql Htext).
    cbn [flat_map]. unfold _rewrite_init_command. rewrite Hnodot. cbn [negb].
    by rewrite app_nil_r. }
  split; [done|]. intros Hlf. by rewrite E, strip_join_splitlines.
Qed.

Lemma init_statements_sql_only_witness :
  @init_statements posix_flavour
    (lit " create table t(i int);" ++ [LF] ++ lit "insert into t" ++ [LF]
     ++ lit "values (1);" ++ [LF])
  = [lit "create table t(i int)";
     [LF] ++ lit "insert into t" ++ [LF] ++ lit "values (1)"].
Proof.
  destruct (init_statements_sql_only posix_flavour
              (lit " create table t(i int);" ++ [LF] ++ lit "insert into t"
               ++ [LF] ++ lit "values (1);" ++ [LF])) as [_ H].
  - vm_compute. repeat constructor.
  - exists 99. split; [|reflexivity]. vm_compute. right. left.
  - reflexivity.
  - rewrite H; [reflexivity|].
    vm_compute. repeat (constructor; [intros E; try reflexivity; discriminate E|]).
    constructor.
Defined.

(** X8: rewriting is idempotent: what the rewriter returns, it returns
    unchanged when given it again. *)
Theorem rewrite_init_command_idempotent
    (flavour : PathFlavour) (command sql : str) :
  _rewrite_init_command command = Return sql ->
  _rewrite_init_command sql = Return sql.
Proof.
  unfold _rewrite_init_command at 1.
  destruct (startswith command (lit ".")) eqn:Hdot; cbn [negb].
  - assert (Hnodot : startswith sql (lit ".") = false ->
                     _rewrite_init_command sql = Return sql).
    { intros H. unfold _rewrite_init_command. by rewrite H. }
    destruct (startswith command (lit ".open")).
    + rewrite rewrite_dot_open_rule. intros [= <-]. apply Hnodot.
      pose proof (open_rule_attach (drop 1 (split_ws command))) as Ha.
      by apply startswith_inv in Ha as [t ->].
    + intros [= <-]. by apply Hnodot.
  - intros [= <-]. unfold _rewrite_init_command. by rewrite Hdot.
Qed.

Lemma rewrite_init_command_idempotent_witness :
  @_rewrite_init_command posix_flavour (lit "attach 'a.db' as a; use a;")
  = Return (lit "attach 'a.db' as a; use a;").
Proof.
  apply (rewrite_init_command_idempotent posix_flavour (lit ".open a.db")).
  reflexivity.
Defined.

(** X9: the engine is never given an empty statement nor one that holds a
    ";": every statement of a script has a character that is not whitespace
    and no ";". *)
Theorem init_statements_well_formed
    (flavour : PathFlavour) (init_script stmt : str) :
  stmt ∈ init_statements init_script ->
  has_text stmt /\ 59 ∉ stmt.
Proof.
  unfold init_statements. intros Hin.
  apply list_elem_of_In, in_flat_map in Hin as (command & _ & Hin).
  destruct (_rewrite_init_command command) as [sql|e]; [|done].
  unfold statements_of in Hin. apply filter_In in Hin as [Hin Htext].
  split.
  - destruct (lstrip_split stmt) as (a & Ha & Hs & [E|(c & t & E & Hc)]).
    + unfold strip in Htext. by rewrite E in Htext.
    + exists c. split; [|done]. rewrite Hs, E, elem_of_app. right. by left.
  - by apply (split_piece_no_sep 59 sql), list_elem_of_In.
Qed.

Lemma init_statements_well_formed_witness :
  has_text (lit " use foo") /\ 59 ∉ lit " use foo".
Proof.
  apply (init_statements_well_formed posix_flavour example_script).
  vm_compute. do 2 right. left.
Defined.

(** ** CatalogBuilder: identifiers, shape *)

Lemma Forall2_Return_Forall {A B} (body : A -> result B) (P : B -> Prop)
    (xs : list A) (ys : list B) :
  (forall x y, body x = Return y -> P y) ->
  Forall2 (fun x y => body x = Return y) xs ys -> Forall P ys.
Proof.
  intros HP. induction 1 as [|x y xs ys Hxy _ IH]; constructor; eauto.
Qed.

Lemma for_append_Forall {A B} (body : A -> result B) (P : B -> Prop)
    (xs : list A) (items : list B) :
  (forall x y, body x = Return y -> P y) ->
  for_append xs body [] = Return items -> Forall P items.
Proof.
  intros HP (ys & -> & Hys)%for_append_Return. cbn [app].
  by apply (Forall2_Return_Forall body P xs).
Qed.

Section IdentifierFacts.
Variable self : MetadataSource.

Lemma column_item_identified table_identifier col item :
  column_item table_identifier col = Return item ->
  column_identified table_identifier item.
Proof.
  unfold column_item.
  destruct (_short_column_type (snd col)) as [short|e]; cbn [bind]; [|done].
  intros [= <-]. by split.
Qed.

Lemma table_item_identified database schema schema_identifier row item :
  table_item self database schema schema_identifier row = Return item ->
  table_identified schema_identifier item.
Proof.
  unfold table_item. destruct row as [table kind].
  destruct (_get_columns self database schema table) as [columns|e];
    cbn [bind]; [|done].
  destruct (for_append columns _ []) as [column_items|e] eqn:E;
    cbn [bind]; [|done].
  intros [= <-]. unfold table_identified.
  cbn [qualified_identifier query_name label children].
  repeat split. eapply for_append_Forall; [|exact E].
  intros col it. apply column_item_identified.
Qed.

Lemma schema_item_identified database database_identifier schema item :
  schema_item self database database_identifier schema = Return item ->
  schema_identified database_identifier item.
Proof.
  unfold schema_item.
  destruct (_get_tables self database schema) as [tables|e];
    cbn [bind]; [|done].
  destruct (for_append tables _ []) as [table_items|e] eqn:E;
    cbn [bind]; [|done].
  intros [= <-]. unfold schema_identified.
  cbn [qualified_identifier query_name label children].
  repeat split. eapply for_append_Forall; [|exact E].
  intros row it. apply table_item_identified.
Qed.

Lemma database_item_identified database item :
  database_item self database = Return item -> database_identified item.
Proof.
  unfold database_item.
  destruct (_get_schemas self database) as [schemas|e]; cbn [bind]; [|done].
  destruct (for_append schemas _ []) as [schema_items|e] eqn:E;
    cbn [bind]; [|done].
  intros [= <-]. unfold database_identified.
  cbn [qualified_identifier query_name label children].
  repeat split. eapply for_append_Forall; [|exact E].
  intros schema it. apply schema_item_identified.
Qed.

End IdentifierFacts.

(** X10: in every catalog the build returns, the qualified identifier of a
    node is the qualified identifier of its parent, a dot, and the name of the
    node between double quotes (for a database: its quoted name alone); the
    query name of a database, schema or table is its qualified identifier,
    and the query name of a column is its quoted name alone. *)
Theorem get_catalog_identifiers (self : MetadataSource) (catalog : Catalog) :
  get_catalog self = Return catalog ->
  Forall database_identified (items catalog).
Proof.
  unfold get_catalog.
  destruct (_get_databases self) as [databases|e]; cbn [bind]; [|done].
  destruct (for_append databases _ []) as [catalog_items|e] eqn:E;
    cbn [bind]; [|done].
  intros [= <-]. cbn [items]. eapply for_append_Forall; [|exact E].
  intros database it. apply database_item_identified.
Qed.

Lemma get_catalog_identifiers_witness :
  exists catalog,
    get_catalog example_source = Return catalog
    /\ Forall database_identified (items catalog).
Proof.
  eexists. split; [reflexivity|].
  apply (get_catalog_identifiers example_source). reflexivity.
Defined.

Lemma foldr_max_le (n : nat) (depths : list nat) :
  Forall (fun d => (d <= n)%nat) depths ->
  (foldr Nat.max 0%nat depths <= n)%nat.
Proof. induction 1; cbn [foldr]; lia. Qed.

Lemma items_depth_le (n : nat) (cs : list CatalogItem) :
  Forall (fun c => (item_depth c <= n)%nat) cs ->
  (foldr (fun c d => Nat.max (item_depth c) d) 0%nat cs <= n)%nat.
Proof. induction 1; cbn [foldr]; lia. Qed.

Lemma Forall2_Forall_r {A B} (R : A -> B -> Prop) (P : B -> Prop) xs ys :
  (forall x y, R x y -> P y) -> Forall2 R xs ys -> Forall P ys.
Proof. intros HP. induction 1; constructor; eauto. Qed.

Section ShapeFacts.
Variable self : MetadataSource.

Lemma column_ok_depth col item : column_ok col item -> item_depth item = 1%nat.
Proof. destruct item. intros (_ & _ & Hc). cbn in Hc. by subst. Qed.

Lemma table_ok_depth database schema row item :
  table_ok self database schema row item -> (item_depth item <= 2)%nat.
Proof.
  destruct item as [q n l t cs]. intros (_ & _ & columns & _ & Hcs).
  cbn [children] in Hcs. cbn [item_depth].
  apply le_n_S, items_depth_le.
  eapply Forall2_Forall_r; [|exact Hcs].
  intros col it ->%column_ok_depth. lia.
Qed.

Lemma schema_ok_depth database schema item :
  schema_ok self database schema item -> (item_depth item <= 3)%nat.
Proof.
  destruct item as [q n l t cs]. intros (_ & _ & tables & _ & Hcs).
  cbn [children] in Hcs. cbn [item_depth].
  apply le_n_S, items_depth_le.
  eapply Forall2_Forall_r; [|exact Hcs].
  intros row it. apply table_ok_depth.
Qed.

Lemma database_ok_depth database item :
  database_ok self database item -> (item_depth item <= 4)%nat.
Proof.
  destruct item as [q n l t cs]. intros (_ & _ & schemas & _ & Hcs).
  cbn [children] in Hcs. cbn [item_depth].
  apply le_n_S, items_depth_le.
  eapply Forall2_Forall_r; [|exact Hcs].
  intros schema it. apply schema_ok_depth.
Qed.

End ShapeFacts.

(** X11: a catalog the build returns has at most four levels, and as many
    top-level nodes as the databases query returned rows. *)
Theorem get_catalog_shape (self : MetadataSource) (catalog : Catalog) :
  get_catalog self = Return catalog ->
  (catalog_depth catalog <= 4)%nat
  /\ exists databases,
       _get_databases self = Return databases
       /\ length (items catalog) = length databases.
Proof.
  intros (databases & Hdbs & Hok)%get_catalog_Return. split.
  - unfold catalog_depth. apply items_depth_le.
    eapply Forall2_Forall_r; [|exact Hok].
    intros database it. apply database_ok_depth.
  - exists databases. split; [done|]. symmetry. by eapply Forall2_length.
Qed.

Lemma get_catalog_shape_witness :
  exists catalog,
    get_catalog example_source = Return catalog
    /\ (catalog_depth catalog <= 4)%nat.
Proof.
  eexists. split; [reflexivity|].
  apply (get_catalog_shape example_source). reflexivity.
Defined.

Lemma app_sep_inj (sep : N) (a a' x x' : str) :
  sep ∉ a -> sep ∉ a' -> a ++ sep :: x = a' ++ sep :: x' -> a = a' /\ x = x'.
Proof.
  revert a'. induction a as [|c a IH]; intros a' Ha Ha'.
  - destruct a' as [|c' a']; cbn [app].
    + by intros [= ->].
    + intros [= <- _]. apply not_elem_of_cons in Ha' as [? _]. done.
  - apply not_elem_of_cons in Ha as [Hc Ha].
    destruct a' as [|c' a']; cbn [app]; [by intros [= ->]|].
    apply not_elem_of_cons in Ha' as [Hc' Ha'].
    intros [= -> E]. by destruct (IH a' Ha Ha' E) as [-> ->].
Qed.

Lemma quoted_inj_app (a a' x x' : str) :
  DQUOTE ∉ a -> DQUOTE ∉ a' ->
  quoted a ++ x = quoted a' ++ x' -> a = a' /\ x = x'.
Proof.
  unfold quoted. intros Ha Ha'. rewrite <- !app_assoc. cbn [app].
  intros [= E]. by apply (app_sep_inj DQUOTE).
Qed.

(** X12: qualified identifiers name their object: where no name holds a
    double quote, the identifier of a table determines its database, its
    schema and its name.  With a double quote in a name it does not: the
    table [t] of the schema [b"."c] of the database [a] and the table [t] of
    the schema [c] of the database [a"."b] have the same identifier. *)
Theorem table_identifier_unambiguous :
  (forall database schema table database' schema' table' : str,
     DQUOTE ∉ database -> DQUOTE ∉ schema -> DQUOTE ∉ table ->
     DQUOTE ∉ database' -> DQUOTE ∉ schema' -> DQUOTE ∉ table' ->
     (quoted database ++ lit "." ++ quoted schema) ++ lit "." ++ quoted table
     = (quoted database' ++ lit "." ++ quoted schema') ++ lit "." ++ quoted table' ->
     database = database' /\ schema = schema' /\ table = table')
  /\ (quoted (lit "a") ++ lit "." ++ quoted (lit "b" ++ quoted (lit ".") ++ lit "c"))
     ++ lit "." ++ quoted (lit "t")
     = (quoted (lit "a" ++ quoted (lit ".") ++ lit "b") ++ lit "." ++ quoted (lit "c"))
       ++ lit "." ++ quoted (lit "t").
Proof.
  split; [|reflexivity].
  intros database schema table database' schema' table' Hd Hs Ht Hd' Hs' Ht'.
  rewrite <- !app_assoc.
  intros [-> E]%quoted_inj_app; [|done..]. split; [done|].
  apply app_inv_head in E.
  apply quoted_inj_app in E as [-> E]; [|done..]. split; [done|].
  apply app_inv_head in E.
  rewrite <- (app_nil_r (quoted table)), <- (app_nil_r (quoted table')) in E.
  by apply quoted_inj_app in E as [-> _].
Qed.

Lemma table_identifier_unambiguous_witness :
  (quoted (lit "memory") ++ lit "." ++ quoted (lit "main")) ++ lit "."
  ++ quoted (lit "t1")
  <> (quoted (lit "memory") ++ lit "." ++ quoted (lit "main")) ++ lit "."
     ++ quoted (lit "t2").
Proof.
  intros E. destruct table_identifier_unambiguous as [H _].
  apply H in E; try (apply (bool_decide_unpack _); by vm_compute).
  destruct E as (_ & _ & E). discriminate E.
Defined.

(** ** The connection layer *)

Module ConnFacts.
Import Conn.

Lemma for_append_total {A B} (body : A -> result B) (xs : list A) :
  (forall x, exists y, body x = Return y) ->
  exists ys, for_append xs body [] = Return ys
             /\ Forall2 (fun x y => body x = Return y) xs ys.
Proof.
  intros Htotal. destruct (for_append xs body []) as [ys|e] eqn:E.
  - exists ys. split; [done|].
    by apply for_append_Return in E as (ys' & -> & Hys).
  - apply for_append_Raise in E as (x & _ & Hx).
    destruct (Htotal x) as [y Hy]. congruence.
Qed.

Lemma map_fst_combine {A B} (a : list A) (b : list B) :
  List.map fst (combine a b) = take (length b) a.
Proof.
  revert b. induction a as [|x a IH]; intros [|y b]; cbn; [done..|].
  by rewrite IH.
Qed.

Lemma Forall2_combine {A B C} (R : A -> C -> Prop) (names : list B)
    (xs : list A) (ys : list C) :
  Forall2 R xs ys ->
  Forall2 (fun x col => R x (snd col)) (take (length names) xs) (combine names ys).
Proof.
  intros H. revert names. induction H as [|x y xs ys Hxy _ IH];
    intros [|n names]; cbn; constructor; [done|apply IH].
Qed.

(** X13: [columns] never raises; it pairs the column names of the relation,
    in their order, with the tags of the native types, in their order, as far
    as both lists go. *)
Theorem cursor_columns (duckdb : DuckDB) (self : DuckDbCursor) :
  exists cols,
    columns self = Return cols
    /\ List.map fst cols
       = take (length (rel_dtypes (relation self))) (rel_columns (relation self))
    /\ Forall2 (fun dtype col => _short_column_type dtype = Return (snd col))
               (take (length (rel_columns (relation self)))
                     (rel_dtypes (relation self)))
               cols.
Proof.
  unfold columns.
  destruct (for_append_total _short_column_type (rel_dtypes (relation self)))
    as (tags & -> & Htags).
  { intros x. eexists. apply short_column_type_eq. }
  cbn [bind]. eexists. split; [done|]. split.
  - rewrite map_fst_combine. f_equal. symmetry. by eapply Forall2_length.
  - by apply (Forall2_combine (fun x y => _short_column_type x = Return y)).
Qed.

(** *** [copy] *)

Lemma writer_outcome_copy_error (duckdb : DuckDB) (title : str)
    (r : eresult exc unit * Connection) :
  (forall e conn', r = (ERaise e, conn') ->
                   isinstance e Error || isinstance e OSError = true) ->
  returns_or_copy_error (writer_outcome title r).
Proof.
  intros H. destruct r as [[[]|e] conn']; cbn [writer_outcome]; [done|].
  by rewrite (H e conn' eq_refl).
Qed.

(** X14: provided the engine raises only [duckdb.Error]s from a query and
    only [duckdb.Error]s or [OSError]s from its writers, the one exception
    that leaves [copy] and is not a [HarlequinCopyError] is the one that
    [path.expanduser()] raises, which no [try] covers: [copy] returns, or
    raises a [HarlequinCopyError], or raises what [expanduser] raised on its
    path, whatever the query, the format and the options.  Where
    [expanduser] returns, [copy] returns or raises a [HarlequinCopyError]. *)
Theorem copy_raises_copy_error (duckdb : DuckDB) :
  (forall query conn e conn',
     conn_sql query conn = (ERaise e, conn') -> isinstance e Error = true) ->
  (forall rel path kwargs conn e conn',
     write_csv rel path kwargs conn = (ERaise e, conn') ->
     isinstance e Error || isinstance e OSError = true) ->
  (forall rel path compression conn e conn',
     write_parquet rel path compression conn = (ERaise e, conn') ->
     isinstance e Error || isinstance e OSError = true) ->
  forall query path format_name options conn,
    returns_or_copy_error_or (fun e => expanduser path = ERaise e)
      (copy query path format_name options conn)
    /\ (forall final_path,
          expanduser path = EOk final_path ->
          returns_or_copy_error (copy query path format_name options conn)).
Proof.
  intros Hsql Hcsv Hparquet query path format_name options conn.
  assert (Hweak : forall r : outcome exc unit * Connection,
             returns_or_copy_error r ->
             returns_or_copy_error_or (fun e => expanduser path = ERaise e) r).
  { intros [[[]|[]] ?]; done. }
  assert (Hmain : match expanduser path with
                  | EOk _ =>
                      returns_or_copy_error
                        (copy query path format_name options conn)
                  | ERaise e =>
                      returns_or_copy_error_or (fun e => expanduser path = ERaise e)
                        (copy query path format_name options conn)
                  end).
  { unfold copy. destruct (truthy query); cbn [negb].
    2: { by destruct (expanduser path). }
    unfold execute.
    destruct (conn_sql query conn) as [[[rel|]|e] conn1] eqn:E1.
    - destruct (expanduser path) as [final_path|e] eqn:Epath;
        [|exact eq_refl].
      destruct (Py.eqb format_name (lit "csv")).
      { apply writer_outcome_copy_error. intros e conn'. apply Hcsv. }
      destruct (Py.eqb format_name (lit "parquet")).
      { apply writer_outcome_copy_error. intros e conn'. apply Hparquet. }
      destruct (Py.eqb format_name (lit "json")); [|done].
      destruct (conn_sql _ conn1) as [[[rel2|]|e] conn2] eqn:E2; [done..|].
      by rewrite (Hsql _ _ _ _ E2).
    - by destruct (expanduser path).
    - rewrite (Hsql _ _ _ _ E1). by destruct (expanduser path). }
  split.
  - destruct (expanduser path); [by apply Hweak|done].
  - intros final_path Hpath. by rewrite Hpath in Hmain.
Qed.

Lemma copy_raises_copy_error_witness :
  returns_or_copy_error
    (@copy Mock.mock (lit "select 1") (lit "/readonly/out.csv") (lit "csv") ∅ [])
  /\ @copy Mock.mock (lit "select 1") (lit "/readonly/out.csv") (lit "csv") ∅ []
     = (Exc (HarlequinCopyError (lit "Permission denied: /readonly/out.csv")
               (lit "DuckDB raised an error when writing your query to a CSV file.")),
        [lit "select 1"])
  /\ @copy Mock.mock (lit "select 1") (lit "~nobody/out.csv") (lit "csv") ∅ []
     = (Exc (Foreign (Mock.RuntimeError (lit "Could not determine home directory."))),
        [lit "select 1"]).
Proof.
  split; [|split; reflexivity].
  refine (proj2 (copy_raises_copy_error Mock.mock _ _ _ (lit "select 1")
                   (lit "/readonly/out.csv") (lit "csv") ∅ [])
                (lit "/readonly/out.csv") eq_refl).
  - intros query conn e conn'. cbv [conn_sql isinstance Mock.mock].
    destruct (contains _ query); [by intros [= <- _]|].
    by destruct (startswith query _).
  - intros rel path kwargs conn e conn'.
    cbv [write_csv isinstance Mock.mock Mock.mock_write].
    destruct (contains _ path); [by intros [= <- _]|done].
  - intros rel path kwargs conn e conn'.
    cbv [write_parquet isinstance Mock.mock Mock.mock_write].
    destruct (contains _ path); [by intros [= <- _]|done].
Defined.

(** X15: when the engine refuses the query of an export with a
    [duckdb.Error], [copy] raises a [HarlequinCopyError] that carries the
    engine's message and the title of [execute], whatever the format, and
    nothing is written: the connection is as the refused query left it. *)
Theorem copy_query_error (duckdb : DuckDB)
    (query path format_name : str) (options : gmap (list N) PyVal)
    (conn conn' : Connection) (e : exc) :
  query <> [] ->
  conn_sql query conn = (ERaise e, conn') ->
  isinstance e Error = true ->
  copy query path format_name options conn
  = (Exc (HarlequinCopyError (exc_str e)
            (lit "DuckDB raised an error when compiling or running your query:")),
     conn').
Proof.
  intros Hquery Hsql Herr. unfold copy, execute.
  destruct query; [done|]. cbn [truthy negb]. by rewrite Hsql, Herr.
Qed.

Lemma copy_query_error_witness :
  @copy Mock.mock (lit "select boom") (lit "out.json") (lit "json") ∅ []
  = (Exc (HarlequinCopyError (lit "Parser Error: syntax error at boom")
            (lit "DuckDB raised an error when compiling or running your query:")),
     []).
Proof.
  apply (copy_query_error Mock.mock (lit "select boom") (lit "out.json")
           (lit "json") ∅ [] []
           (Mock.ParserException (lit "Parser Error: syntax error at boom")));
    [discriminate | reflexivity | reflexivity].
Defined.

(** X16: with a format name other than "csv", "parquet" and "json", [copy]
    writes nothing: once the query has given a cursor it expands the path,
    and then returns without an error, or raises what [path.expanduser()]
    raised; either way the connection is as the query left it. *)
Theorem copy_unknown_format (duckdb : DuckDB)
    (query path format_name : str) (options : gmap (list N) PyVal)
    (conn conn1 : Connection) (rel : Relation) :
  query <> [] ->
  conn_sql query conn = (EOk (Some rel), conn1) ->
  format_name ∉ [lit "csv"; lit "parquet"; lit "json"] ->
  copy query path format_name options conn
  = match expanduser path with
    | EOk _ => (Ok tt, conn1)
    | ERaise e => (Exc (Foreign e), conn1)
    end.
Proof.
  intros Hquery Hsql Hformat. unfold copy, execute.
  destruct query; [done|]. cbn [truthy negb]. rewrite Hsql.
  destruct (expanduser path); [|done].
  rewrite !not_elem_of_cons in Hformat. destruct Hformat as (H1 & H2 & H3 & _).
  unfold Py.eqb. by rewrite !bool_decide_eq_false_2.
Qed.

Lemma copy_unknown_format_witness :
  @copy Mock.mock (lit "select 1") (lit "~/out.tsv") (lit "tsv") ∅ []
  = (Ok tt, [lit "select 1"])
  /\ @copy Mock.mock (lit "select 1") (lit "~nobody/out.tsv") (lit "tsv") ∅ []
     = (Exc (Foreign (Mock.RuntimeError (lit "Could not determine home directory."))),
        [lit "select 1"]).
Proof.
  split.
  - apply (copy_unknown_format Mock.mock (lit "select 1") (lit "~/out.tsv")
             (lit "tsv") ∅ [] [lit "select 1"] (lit "select 1")).
    + discriminate.
    + reflexivity.
    + apply (bool_decide_unpack _). by vm_compute.
  - apply (copy_unknown_format Mock.mock (lit "select 1") (lit "~nobody/out.tsv")
             (lit "tsv") ∅ [] [lit "select 1"] (lit "select 1")).
    + discriminate.
    + reflexivity.
    + apply (bool_decide_unpack _). by vm_compute.
Defined.

Lemma truthy_options_lookup (options : gmap (list N) PyVal) (key : str) (v : PyVal) :
  truthy_options options !! key = Some v
  <-> options !! key = Some v /\ truth v = true.
Proof. unfold truthy_options. by rewrite map_lookup_filter_Some. Qed.

Lemma truthy_options_get (options : gmap (list N) PyVal) (key : str) :
  truth (get options key PyNone) = false ->
  get (truthy_options options) key PyNone = PyNone.
Proof.
  unfold get. intros H.
  destruct (truthy_options options !! key) as [v|] eqn:E; [|done].
  apply truthy_options_lookup in E as [E Hv]. rewrite E in H. congruence.
Qed.

(** X17: the keyword arguments [copy] gives to the CSV writer hold only
    options whose value is true in Python's sense; a [quoting] among them is
    always "ALL", whatever was asked; every other option is passed as it was
    given; and no option with a true value is lost. *)
Theorem csv_kwargs_options (options : gmap (list N) PyVal) (key : str) :
  (forall v, csv_kwargs options !! key = Some v ->
     truth v = true
     /\ (key = lit "quoting" -> v = PyStr (lit "ALL"))
     /\ (key <> lit "quoting" -> options !! key = Some v))
  /\ (forall v, options !! key = Some v -> truth v = true ->
        exists v', csv_kwargs options !! key = Some v').
Proof.
  unfold csv_kwargs. cbv zeta.
  destruct (truth (get (truthy_options options) (lit "quoting") PyNone)) eqn:Hq.
  - split.
    + intros v. destruct (decide (key = lit "quoting")) as [->|Hne].
      * rewrite lookup_insert_eq. intros [= <-]. by repeat split.
      * rewrite lookup_insert_ne by done.
        intros [Hv Ht]%truthy_options_lookup. by repeat split.
    + intros v Hv Ht. destruct (decide (key = lit "quoting")) as [->|Hne].
      * rewrite lookup_insert_eq. eauto.
      * rewrite lookup_insert_ne by done. exists v.
        by apply truthy_options_lookup.
  - split.
    + intros v [Hv Ht]%truthy_options_lookup. repeat split; [done| |done].
      intros ->. unfold get in Hq.
      assert (E : truthy_options options !! lit "quoting" = Some v)
        by (by apply truthy_options_lookup).
      rewrite E in Hq. congruence.
    + intros v Hv Ht. exists v. by apply truthy_options_lookup.
Qed.

Lemma csv_kwargs_options_witness :
  csv_kwargs {[ lit "quoting" := PyBool true; lit "header" := PyBool false;
                lit "sep" := PyStr (lit "|") ]}
  !! lit "quoting" = Some (PyStr (lit "ALL")).
Proof.
  destruct (csv_kwargs_options
              {[ lit "quoting" := PyBool true; lit "header" := PyBool false;
                 lit "sep" := PyStr (lit "|") ]} (lit "quoting")) as [H1 H2].
  destruct (H2 (PyBool true)) as [v' Hv']; [by vm_compute|reflexivity|].
  rewrite Hv'. f_equal. by apply (H1 v' Hv').
Defined.

(** X18: when none of the options "array", "compression", "date_format" and
    "options.timestamp_format" is set to a true value, the statement of the
    JSON export still names a compression: it is
    [copy (<query>) to '<path>' (FORMAT JSON, COMPRESSION None)]. *)
Theorem json_copy_statement_no_options
    (query final_path : str) (options : gmap (list N) PyVal) :
  Forall (fun key => truth (get options key PyNone) = false)
         [lit "array"; lit "compression"; lit "date_format";
          lit "options.timestamp_format"] ->
  json_copy_statement query final_path options
  = lit "copy (" ++ query ++ lit ") to '" ++ final_path
    ++ lit "' (FORMAT JSON, COMPRESSION None)".
Proof.
  intros H. unfold json_copy_statement. cbv zeta.
  apply Forall_cons in H as [Ha H]. apply Forall_cons in H as [Hc H].
  apply Forall_cons in H as [Hd H]. apply Forall_cons in H as [Ht _].
  rewrite (truthy_options_get _ _ Ha), (truthy_options_get _ _ Hc),
    (truthy_options_get _ _ Hd), (truthy_options_get _ _ Ht).
  cbn [truth to_str]. rewrite !app_nil_l, <- !app_assoc. reflexivity.
Qed.

Lemma json_copy_statement_no_options_witness :
  json_copy_statement (lit "select 1") (lit "out.json")
                      {[ lit "array" := PyBool false ]}
  = lit "copy (select 1) to 'out.json' (FORMAT JSON, COMPRESSION None)".
Proof.
  rewrite json_copy_statement_no_options; [reflexivity|].
  repeat constructor.
Defined.

(** *** [validate_sql] *)

(** X19: the text [validate_sql] puts between quotes in its statement reads
    back, as the body of an SQL string literal, as the text itself: every
    quote of the text is doubled and no single quote is left that would end
    the literal. *)
Theorem escape_quotes_unquote (text : str) :
  sql_unquote (escape_quotes text) = Some text.
Proof.
  induction text as [|c text IH]; [done|].
  unfold escape_quotes in *. cbn [flat_map].
  destruct (N.eqb_spec c 39) as [->|Hc].
  - cbn [app sql_unquote N.eqb Pos.eqb]. by rewrite IH.
  - cbn [app sql_unquote]. destruct (N.eqb_spec c 39); [done|]. by rewrite IH.
Qed.

(** X20: [validate_sql] returns the text unchanged or the empty string, and
    the empty string only when the engine reports an error of type "parser"
    (a report without an "error" entry counts as an error); an exception of
    the engine is not turned into the empty string: it leaves [validate_sql]
    as it is. *)
Theorem validate_sql_outcomes (duckdb : DuckDB) (text : str) (conn : Connection) :
  (forall out conn', validate_sql text conn = (Ok out, conn') ->
     (out = text \/ out = [])
     /\ (out <> text ->
         exists parsed result,
           sql_fetchone (lit "select json_serialize_sql('" ++ escape_quotes text
                         ++ lit "')") conn = (EOk parsed, conn')
           /\ json_loads parsed = EOk result
           /\ get result (lit "error_type") (PyStr []) = PyStr (lit "parser")
           /\ truth (get result (lit "error") (PyBool true)) = true))
  /\ (forall e conn',
        sql_fetchone (lit "select json_serialize_sql('" ++ escape_quotes text
                      ++ lit "')") conn = (ERaise e, conn') ->
        validate_sql text conn = (Exc (Foreign e), conn')).
Proof.
  unfold validate_sql. cbv zeta.
  destruct (sql_fetchone _ conn) as [[parsed|e] conn1] eqn:E1; split.
  - intros out conn'.
    destruct (json_loads parsed) as [result|e] eqn:E2; [|done].
    destruct (truth (get result (lit "error") (PyBool true))) eqn:Herr;
      cbn [andb].
    + destruct (get result (lit "error_type") (PyStr [])) as [| | |s|] eqn:Hty;
        cbn [is_parser]; try (intros [= <- <-]; split; [by left|done]).
      unfold Py.eqb. case_bool_decide as Hs.
      * intros [= <- <-]. split; [by right|]. intros _.
        exists parsed, result. rewrite Hs in Hty. by rewrite Herr.
      * intros [= <- <-]. split; [by left|done].
    + intros [= <- <-]. split; [by left|done].
  - done.
  - done.
  - by intros e' conn' [= <- <-].
Qed.

Lemma validate_sql_outcomes_witness :
  exists parsed result,
    @json_loads Mock.mock parsed = EOk result
    /\ get result (lit "error_type") (PyStr []) = PyStr (lit "parser").
Proof.
  destruct (validate_sql_outcomes Mock.mock (lit "selec 1") []) as [H _].
  destruct (H [] [] eq_refl) as [_ H2].
  destruct H2 as (parsed & result & _ & Hj & Ht & _); [discriminate|].
  by exists parsed, result.
Defined.

(** *** The opening of the connection *)

Section OpenFacts.
Context {duckdb : DuckDB}.




Lemma contains_app (needle a b : str) : contains needle (a ++ needle ++ b) = true.
Proof.
  induction a as [|x a IH]; cbn [app].
  - destruct (needle ++ b) eqn:E; cbn [contains]; rewrite <- E;
      by rewrite startswith_app.
  - cbn [contains]. rewrite IH. by destruct (startswith _ _).
Qed.

Lemma contains_refl (s : str) : contains s s = true.
Proof.
  rewrite <- (app_nil_r s) at 2. apply (contains_app s [] []).
Qed.

Lemma contains_mid (a needle b hay : str) :
  hay = a ++ needle ++ b -> contains needle hay = true.
Proof. intros ->. apply contains_app. Qed.

Lemma endswith_mid (t suffix s : str) :
  s = t ++ suffix -> endswith s suffix = true.
Proof. intros ->. apply endswith_app. Qed.

Lemma connect_error_message_contains (self : DuckDbAdapter) (msg : str) :
  contains msg (connect_error_message self msg) = true
  /\ (contains (lit "sqlite_scanner") msg = true ->
      endswith (connect_error_message self msg)
               (lit "harlequin -a sqlite " ++ join (lit " ") (conn_str self))
      = true).
Proof.
  unfold connect_error_message.
  destruct (contains (lit "sqlite_scanner") msg).
  - split.
    + eapply (contains_mid
                (lit "DuckDB raised the following error when trying to open "
                 ++ lit "one or more database files:" ++ [LF] ++ lit "---"
                 ++ [LF])).
      by rewrite <- !app_assoc.
    + intros _.
      apply (endswith_mid
               (lit "DuckDB raised the following error when trying to open "
                ++ lit "one or more database files:" ++ [LF] ++ lit "---"
                ++ [LF] ++ msg ++ [LF] ++ lit "---" ++ [LF; LF]
                ++ lit "Did you mean to use Harlequin's sqlite adapter instead? "
                ++ lit "Maybe try:" ++ [LF])).
      by rewrite <- !app_assoc.
  - split; [apply contains_refl|done].
Qed.

End OpenFacts.

Section OpenRest.
Context {duckdb : DuckDB}.


End OpenRest.

(** X21: after [__init__], [connect] always finds a primary database: it
    never fails to unpack the connection string, and an empty connection
    string is the in-memory database. *)
Theorem connect_open_after_init (duckdb : DuckDB)
    (conn_str : list str) (init_path : option str)
    (no_init read_only allow_unsigned : PyVal) (extension : option (list str))
    (force : bool) (repo md_token : option str) (md_saas : bool) :
  connect_open (DuckDbAdapter_init conn_str init_path no_init read_only
                  allow_unsigned extension force repo md_token md_saas)
  <> Exc ValueError
  /\ connect_open (DuckDbAdapter_init [] init_path no_init read_only
                     allow_unsigned extension force repo md_token md_saas)
     = connect_open (DuckDbAdapter_init [lit ":memory:"] init_path no_init
                       read_only allow_unsigned extension force repo md_token
                       md_saas).
Proof.
  split; [|done].
  set (self := DuckDbAdapter_init _ _ _ _ _ _ _ _ _ _).
  assert (Hconn : exists primary others, Conn.conn_str self = primary :: others).
  { unfold self. cbn. destruct conn_str; eauto. }
  destruct Hconn as (primary & others & Hconn).
  unfold connect_open. rewrite Hconn. clearbody self.
  assert (Herr : forall e, Exc (connect_error self e)
                           <> (Exc ValueError : outcome exc Connection)).
  { intros e. unfold connect_error. by destruct (_ || _). }
  destruct (duckdb_connect _ _ _) as [c0|e]; [|apply Herr].
  unfold connect_open_rest.
  destruct (attach_all self others c0) as [[[]|e] c1]; [|apply Herr].
  destruct (if opt_truthy _ then _ else _) as [[[]|e] c2]; [|done].
  destruct (load_extensions self _ c2) as [[[]|e] c3]; [done|].
  by destruct (_ || _).
Qed.


(** X23: when the engine refuses to open the primary database or to attach
    one of the others with a [CatalogException] or an [IOException],
    [connect] raises a [HarlequinConnectionError] under the title "DuckDB
    couldn't connect to your database." whose message holds the engine's
    message; if that message mentions "sqlite_scanner", the message ends with
    the command [harlequin -a sqlite] followed by all the databases of the
    connection string. *)
Theorem connect_open_error (duckdb : DuckDB) (self : DuckDbAdapter)
    (primary_db : str) (other_dbs : list str) (e : exc) :
  conn_str self = primary_db :: other_dbs ->
  duckdb_connect (database_name self primary_db) (read_only self)
                 (allow_unsigned_config self) = ERaise e
  \/ (exists opened conn',
        duckdb_connect (database_name self primary_db) (read_only self)
                       (allow_unsigned_config self) = EOk opened
        /\ attach_all self other_dbs opened = (ERaise e, conn')) ->
  isinstance e CatalogException || isinstance e IOException = true ->
  exists msg,
    connect_open self
    = Exc (HarlequinConnectionError msg
             (lit "DuckDB couldn't connect to your database."))
    /\ contains (exc_str e) msg = true
    /\ (contains (lit "sqlite_scanner") (exc_str e) = true ->
        endswith msg (lit "harlequin -a sqlite "
                      ++ join (lit " ") (conn_str self)) = true).
Proof.
  intros Hconn Hfail Hclass.
  exists (connect_error_message self (exc_str e)).
  split; [|apply connect_error_message_contains].
  unfold connect_open, connect_open_rest. rewrite Hconn.
  destruct Hfail as [->|(opened & conn' & -> & ->)];
    unfold connect_error; by rewrite Hclass.
Qed.

Lemma connect_open_error_witness :
  exists msg,
    @connect_open Mock.mock
      (@DuckDbAdapter_init Mock.mock [lit "a.sqlite"; lit "b.db"] None (PyBool false)
         (PyStr (lit "yes")) PyNone None false None None false)
    = Exc (HarlequinConnectionError msg
             (lit "DuckDB couldn't connect to your database."))
    /\ endswith msg (lit "harlequin -a sqlite a.sqlite b.db") = true.
Proof.
  destruct (connect_open_error Mock.mock
              (@DuckDbAdapter_init Mock.mock [lit "a.sqlite"; lit "b.db"] None (PyBool false)
                 (PyStr (lit "yes")) PyNone None false None None false)
              (lit "a.sqlite") [lit "b.db"]
              (Mock.IOError (lit "IO Error: Extension sqlite_scanner not found")))
    as (msg & Hopen & _ & Hhint).
  - reflexivity.
  - left. reflexivity.
  - reflexivity.
  - exists msg. split; [exact Hopen|]. apply Hhint. reflexivity.
Defined.


(** X24: for a JSON export [copy] hands the text of the query to the engine
    twice, with two calls of [conn.sql]: the query itself, for a relation
    that this branch never reads, and then, if [path.expanduser()] returned,
    on the connection the first call left, one copy statement that holds the
    text of the query again and the expanded path.  What [copy] gives is what
    the writers of the other formats would give for the outcome of that
    statement: it returns if the engine accepts it, and raises a
    [HarlequinCopyError] with the engine's message under the JSON title if
    the engine refuses it with a [duckdb.Error] or an [OSError]; it does not
    depend on the relation of the first call. *)
Theorem copy_json_two_sql_calls (duckdb : DuckDB)
    (query path final_path : str) (options : gmap (list N) PyVal)
    (conn conn1 : Connection) (rel : Relation) :
  query <> [] ->
  conn_sql query conn = (EOk (Some rel), conn1) ->
  expanduser path = EOk final_path ->
  copy query path (lit "json") options conn
  = writer_outcome
      (lit "DuckDB raised an error when writing your query to a JSON file.")
      (statement_outcome
         (conn_sql (json_copy_statement query final_path options) conn1)).
Proof.
  intros Hquery Hsql Hpath. unfold copy, execute.
  destruct query; [done|]. cbn [truthy negb]. rewrite Hsql, Hpath.
  change (Py.eqb (lit "json") (lit "csv")) with false.
  change (Py.eqb (lit "json") (lit "parquet")) with false.
  change (Py.eqb (lit "json") (lit "json")) with true.
  cbv iota.
  destruct (conn_sql _ conn1) as [[[rel2|]|e] conn2];
    cbn [statement_outcome writer_outcome]; [done..|].
  destruct (isinstance e Error); [done|]. cbn [orb].
  by destruct (isinstance e OSError).
Qed.

Lemma copy_json_two_sql_calls_witness :
  @copy Mock.mock (lit "select 1") (lit "~/o.json") (lit "json") ∅ []
  = (Ok tt, [lit "select 1";
             lit "copy (select 1) to '/home/u/o.json' (FORMAT JSON, COMPRESSION None)"]).
Proof.
  refine (eq_trans
            (copy_json_two_sql_calls Mock.mock (lit "select 1") (lit "~/o.json")
               (lit "/home/u/o.json") ∅ [] [lit "select 1"] (lit "select 1")
               _ _ _) _).
  - discriminate.
  - reflexivity.
  - reflexivity.
  - reflexivity.
Defined.

End ConnFacts.

(** ** Session bootstrap: a final line break *)

Lemma splitlines_snoc_LF (s : str) :
  splitlines (s ++ [LF]) = splitlines s
  \/ splitlines (s ++ [LF]) = splitlines s ++ [[]].
Proof.
  pattern s. apply splitlines_ind; clear s.
  - by right.
  - intros rest IH. cbn [app]. rewrite !splitlines_crlf.
    destruct IH as [-> | ->]; [by left|by right].
  - intros c rest Hc Hcr IH.
    destruct rest as [|x rest'].
    + destruct (N.eqb_spec c CR) as [->|Hne]; [by left|].
      right. cbn [app].
      rewrite (splitlines_break c []); [|done|done].
      rewrite (splitlines_break c [LF]); [|done|by intros ?]. reflexivity.
    + cbn [app]. rewrite (splitlines_break c (x :: rest')) by done.
      rewrite (splitlines_break c (x :: rest' ++ [LF])) by done.
      destruct IH as [IH|IH]; cbn [app] in IH; rewrite IH; [by left|by right].
  - intros c rest Hc IH. cbn [app]. rewrite !splitlines_char by done.
    destruct IH as [-> | ->]; [by left|].
    destruct (splitlines rest) as [|l ls]; [by left|by right].
Qed.

Lemma join_snoc_empty (sep : str) (parts : list str) :
  parts <> [] -> join sep (parts ++ [[]]) = join sep parts ++ sep.
Proof.
  induction parts as [|p parts IH]; [done|]. intros _.
  destruct parts as [|p' parts]; [by cbn; rewrite app_nil_r|].
  change (join sep ((p :: p' :: parts) ++ [[]]))
    with (p ++ sep ++ join sep ((p' :: parts) ++ [[]])).
  rewrite IH by done. cbn [join]. by rewrite <- !app_assoc.
Qed.

Section FinalBreak.
Context {flavour : PathFlavour}.

Lemma scan_statements_snoc_empty (pending lines : list str) :
  scan_statements pending (lines ++ [[]]) = scan_statements pending lines.
Proof.
  unfold scan_statements. revert pending.
  induction lines as [|line lines IH]; intros pending.
  - cbn [app scan_lines]. change (startswith [] (lit ".")) with false.
    cbv iota. cbn [scan_lines].
    destruct pending as [|p pending]; [reflexivity|].
    rewrite (join_snoc_empty [LF] (p :: pending)) by done.
    generalize (join [LF] (p :: pending)). intros j.
    cbn [List.filter].
    assert (Hnew : truthy (j ++ [LF]) = true) by (by destruct j).
    rewrite Hnew. cbn [List.map flat_map].
    rewrite (strip_app_blank j [LF]) by (by repeat constructor).
    destruct j as [|c j']; reflexivity.
  - cbn [app scan_lines]. destruct (startswith line (lit ".")).
    + cbn [List.filter]. specialize (IH []).
      destruct (truthy (join [LF] pending)), (truthy line);
        cbn [List.map flat_map]; by rewrite IH.
    + apply IH.
Qed.

End FinalBreak.

(** X25: a line break added at the end of the init script changes nothing of
    what the bootstrap submits to the engine: the statements are the same, in
    the same order. *)
Theorem init_statements_final_newline
    (flavour : PathFlavour) (init_script : str) :
  init_statements (init_script ++ [LF]) = init_statements init_script.
Proof.
  unfold init_statements, _split_script.
  rewrite !split_script_commands_scan.
  destruct (splitlines_snoc_LF init_script) as [-> | ->]; [done|].
  apply scan_statements_snoc_empty.
Qed.
